(** * STREETLAB: the toast notifier and the product size selector

    A shallow embedding of the two browser scripts of the repository,
    [static/js/product.js] (size selection, add-to-cart enabling) and the
    toast script (transient notification), over a small model of the page:
    the elements of the document in tree order, a millisecond clock and the
    queue of pending timers. *)

From Stdlib Require Import NArith.
From stdpp Require Import gmap strings list.

Set Warnings "-clear-no-such-hyp".

Open Scope string_scope.
Open Scope list_scope.
Open Scope N_scope.
Open Scope nat_scope.

(** ** The page *)

(** An element reference: the position of the element in tree order.  The
    scripts only ever hold references returned by [getElementById] and
    [querySelectorAll], which are positions of existing elements. *)
Abbreviation node := nat (only parsing).

(** The JavaScript values the scripts store in a property: a string, or
    [undefined] (a [dataset] entry that is not there). *)
Inductive jsval : Type :=
  | undefined
  | JString (s : string).

(** What the scripts read and write of an element.  [classList] is the
    ordered token list of the [class] attribute, [dataset] the [data-*]
    attributes, [textContent] a sequence of UTF-16 code units, [value] the
    JavaScript value last assigned to the [value] property (an input
    element hands it back converted to a string) and [disabled] the
    [disabled] flag. *)
Record Element : Type := mkElement {
  elem_id : string;
  classList : list string;
  dataset : gmap string string;
  textContent : list N;
  value : jsval;
  disabled : bool
}.

(** The closure passed to [setTimeout] by the toast script:
    [() => { toast.classList.remove("show"); }], with its captured [toast]. *)
Inductive Callback : Type :=
  | HideToast (toast : node).

Record Timer : Type := mkTimer {
  due : N;
  callback : Callback
}.

Record Page : Type := mkPage {
  doc : list Element;
  now : N;
  timers : list Timer
}.

(** The page as the browser hands it to the page-ready listeners: the
    parsed document, the current time, no timer pending. *)
Definition load (d : list Element) (t : N) : Page :=
  {| doc := d; now := t; timers := [] |}.

Definition with_doc (f : list Element → list Element) (p : Page) : Page :=
  {| doc := f (doc p); now := now p; timers := timers p |}.

(** ** Handlers: state and exceptions *)

Inductive exn : Type :=
  | TypeError.

Inductive outcome (A : Type) : Type :=
  | Normal (a : A)
  | Throw (e : exn).
Arguments Normal {A} a.
Arguments Throw {A} e.

(** A handler body runs on the page, changes it in place and either
    completes or throws; what it changed before throwing stays changed. *)
Definition M (A : Type) : Type := Page → outcome A * Page.

Definition ret {A} (a : A) : M A := λ p, (Normal a, p).

Definition bind {A B} (m : M A) (k : A → M B) : M B :=
  λ p, match m p with
       | (Normal a, p') => k a p'
       | (Throw e, p') => (Throw e, p')
       end.

Definition throw {A} (e : exn) : M A := λ p, (Throw e, p).

#[global] Instance M_ret : MRet M := @ret.
#[global] Instance M_bind : MBind M := λ A B k m, bind m k.

(** [xs.forEach(f)] *)
Fixpoint forEach {A} (xs : list A) (f : A → M unit) : M unit :=
  match xs with
  | [] => ret tt
  | x :: xs' => f x;; forEach xs' f
  end.

(** ** DOM operations *)

(** [DOMTokenList.add]: appends the token unless it is there. *)
Definition token_add (c : string) (l : list string) : list string :=
  if bool_decide (c ∈ l) then l else l ++ [c].

(** [DOMTokenList.remove]: drops the token. *)
Definition token_remove (c : string) (l : list string) : list string :=
  filter (λ x, x ≠ c) l.

Definition set_classList (f : list string → list string) (e : Element) : Element :=
  {| elem_id := elem_id e; classList := f (classList e); dataset := dataset e;
     textContent := textContent e; value := value e; disabled := disabled e |}.

Definition set_value (v : jsval) (e : Element) : Element :=
  {| elem_id := elem_id e; classList := classList e; dataset := dataset e;
     textContent := textContent e; value := v; disabled := disabled e |}.

Definition set_disabled (b : bool) (e : Element) : Element :=
  {| elem_id := elem_id e; classList := classList e; dataset := dataset e;
     textContent := textContent e; value := value e; disabled := b |}.

(** [e.classList.contains(c)], as a pure reading of the document. *)
Definition has_class (d : list Element) (n : node) (c : string) : bool :=
  match d !! n with
  | Some e => bool_decide (c ∈ classList e)
  | None => false
  end.

Definition classList_contains (n : node) (c : string) : M bool :=
  λ p, (Normal (has_class (doc p) n c), p).

Definition classList_add (n : node) (c : string) : M unit :=
  λ p, (Normal tt, with_doc (alter (set_classList (token_add c)) n) p).

Definition classList_remove (n : node) (c : string) : M unit :=
  λ p, (Normal tt, with_doc (alter (set_classList (token_remove c)) n) p).

(** [e.dataset[k]]: the attribute's string, or [undefined]. *)
Definition dataset_of (d : list Element) (n : node) (k : string) : jsval :=
  match d !! n with
  | Some e => match dataset e !! k with
              | Some s => JString s
              | None => undefined
              end
  | None => undefined
  end.

Definition dataset_get (n : node) (k : string) : M jsval :=
  λ p, (Normal (dataset_of (doc p) n k), p).

Definition textContent_get (n : node) : M (list N) :=
  λ p, (Normal (default [] (textContent <$> doc p !! n)), p).

(** A property access on a variable that may hold [null] (the result of a
    [getElementById] that found nothing) throws a [TypeError]. *)
Definition deref (r : option node) : M node :=
  match r with
  | Some n => ret n
  | None => throw TypeError
  end.

Definition value_set (n : node) (v : jsval) : M unit :=
  λ p, (Normal tt, with_doc (alter (set_value v) n) p).

Definition disabled_set (n : node) (b : bool) : M unit :=
  λ p, (Normal tt, with_doc (alter (set_disabled b) n) p).

(** [document.getElementById(s)]: the first element in tree order with
    that id, or [null]. *)
Definition getElementById (s : string) (d : list Element) : option node :=
  fst <$> list_find (λ e, elem_id e = s) d.

Definition document_getElementById (s : string) : M (option node) :=
  λ p, (Normal (getElementById s (doc p)), p).

(** [document.querySelectorAll("." + c)]: the elements of class [c], in
    tree order; a static list. *)
Definition querySelectorAll_class (c : string) (d : list Element) : list node :=
  filter (λ n, has_class d n c = true) (seq 0 (length d)).

(** ** Timers *)

(** The timer queue is kept in firing order: by due time, and among equal
    due times in the order the timers were set. *)
Fixpoint enqueue (tm : Timer) (q : list Timer) : list Timer :=
  match q with
  | [] => [tm]
  | x :: q' => if (due x <=? due tm)%N then x :: enqueue tm q' else tm :: q
  end.

(** [setTimeout(cb, delay)] *)
Definition setTimeout (cb : Callback) (delay : N) : M unit :=
  λ p, (Normal tt,
        {| doc := doc p; now := now p;
           timers := enqueue {| due := now p + delay; callback := cb |} (timers p) |}).

Definition run_callback (cb : Callback) : M unit :=
  match cb with
  | HideToast toast => classList_remove toast "show"
  end.

(** Fires, in queue order, the timers that are due at time [t]: each
    callback runs at its due time on the page as the earlier ones left it.
    The callbacks of these scripts set no timer, so the queue that remains
    is the tail. *)
Fixpoint fire (t : N) (q : list Timer) (d : list Element) : list Timer * list Element :=
  match q with
  | [] => ([], d)
  | tm :: q' =>
      if (due tm <=? t)%N
      then fire t q'
             (doc (run_callback (callback tm)
                     {| doc := d; now := due tm; timers := q' |}).2)
      else (q, d)
  end.

(** [ms] milliseconds pass on the event loop, with no other event. *)
Definition elapse (ms : N) (p : Page) : Page :=
  let t := (now p + ms)%N in
  let '(q, d) := fire t (timers p) (doc p) in
  {| doc := d; now := t; timers := q |}.

(** ** The toast script *)

(** ECMAScript's WhiteSpace and LineTerminator code points, the ones
    [String.prototype.trim] strips. *)
Definition isWhiteSpace (c : N) : bool :=
  ((9 <=? c) && (c <=? 13) || (c =? 32) || (c =? 160) || (c =? 5760)
   || (8192 <=? c) && (c <=? 8202) || (c =? 8232) || (c =? 8233)
   || (c =? 8239) || (c =? 8287) || (c =? 12288) || (c =? 65279))%N.

Fixpoint trimStart (s : list N) : list N :=
  match s with
  | [] => []
  | c :: s' => if isWhiteSpace c then trimStart s' else s
  end.

Definition trimEnd (s : list N) : list N := rev (trimStart (rev s)).

Definition trim (s : list N) : list N := trimEnd (trimStart s).

Module Toast.

(** The listener the script registers for [DOMContentLoaded]. *)
Definition onReady : M unit :=
  found ← document_getElementById "toast";
  match found with
  | None => ret tt
  | Some toast =>
      text ← textContent_get toast;
      let message := trim text in
      if 0 <? length message
      then classList_add toast "show";;
           setTimeout (HideToast toast) 2600
      else ret tt
  end.

(** The page after the listener ran. *)
Definition ready (p : Page) : Page := (onReady p).2.

(** The toast between page-ready and the end of the 2600 ms: [k] ms after
    page-ready the one timer is pending and the toast shows, or the timer
    has fired and it does not. *)
Definition toast_inv (t0 : N) (toast : node) (k : N) (q : Page) : Prop :=
  now q = (t0 + k)%N
  ∧ if bool_decide (k < 2600)%N
    then timers q = [ {| due := t0 + 2600; callback := HideToast toast |} ]
         ∧ has_class (doc q) toast "show" = true
    else timers q = [] ∧ has_class (doc q) toast "show" = false.

End Toast.

(** ** The size selector *)

Module Product.

(** The three constants of the page-ready callback. *)
Record Env : Type := mkEnv {
  sizeButtons : list node;
  sizeInput : option node;
  addToCartBtn : option node
}.

Definition ready (p : Page) : Env :=
  {| sizeButtons := querySelectorAll_class "option" (doc p);
     sizeInput := getElementById "selectedSize" (doc p);
     addToCartBtn := getElementById "addToCartBtn" (doc p) |}.

(** The click listener attached to [button]. *)
Definition onClick (env : Env) (button : node) : M unit :=
  isDisabled ← classList_contains button "disabled";
  if isDisabled : bool then ret tt
  else
    forEach (sizeButtons env) (λ b, classList_remove b "active");;
    classList_add button "active";;
    size ← dataset_get button "size";
    input ← deref (sizeInput env);
    value_set input size;;
    btn ← deref (addToCartBtn env);
    disabled_set btn false;;
    btn' ← deref (addToCartBtn env);
    classList_remove btn' "btn--disabled".

(** A click event reaches the element [n]: the listener registered on [n]
    runs, if [n] has one; an exception ends that listener and leaves the
    page as it is by then.  This is one step of the dispatch of a click,
    not the whole click: see [dispatch]. *)
Definition click (env : Env) (n : node) (p : Page) : Page :=
  if bool_decide (n ∈ sizeButtons env) then (onClick env n p).2 else p.

(** The click event reaches the elements [ns], one after the other. *)
Definition clicks (env : Env) (ns : list node) (p : Page) : Page :=
  foldl (λ q n, click env n q) p ns.

(** The elements a click on [n] reaches, in the order it reaches them: [n]
    itself, then its parent, and so on up to the root.  [parentNode] is the
    tree of the document, which the scripts never change; in tree order a
    parent comes before its children, so from position [n] there are at
    most [n] steps up, and an entry that does not point to an earlier
    position is no parent. *)
Fixpoint path_from (parentNode : node → option node) (fuel : nat) (n : node) : list node :=
  n :: match fuel with
       | 0 => []
       | S fuel' =>
           match parentNode n with
           | Some q => if q <? n then path_from parentNode fuel' q else []
           | None => []
           end
       end.

Definition event_path (parentNode : node → option node) (n : node) : list node :=
  path_from parentNode n n.

(** A click on the element [target].  The listeners are registered with
    [addEventListener("click", ...)] and none stops the propagation, so the
    event bubbles: the listener of the target runs, then the listener of
    every ancestor that has one, each on the page as the one before left
    it. *)
Definition dispatch (env : Env) (parentNode : node → option node) (target : node)
    (p : Page) : Page :=
  clicks env (event_path parentNode target) p.

Definition dispatches (env : Env) (parentNode : node → option node)
    (targets : list node) (p : Page) : Page :=
  foldl (λ q t, dispatch env parentNode t q) p targets.

(** The option elements that carry the ["active"] marker. *)
Definition selected (env : Env) (p : Page) : list node :=
  filter (λ n, has_class (doc p) n "active" = true) (sizeButtons env).

(** The option elements that carry the ["disabled"] marker. *)
Definition disabledOptions (env : Env) (p : Page) : list node :=
  filter (λ n, has_class (doc p) n "disabled" = true) (sizeButtons env).

(** The add-to-cart control is enabled: its [disabled] flag is cleared and
    it does not carry the ["btn--disabled"] marker. *)
Definition enabled (p : Page) (btn : node) : Prop :=
  ∃ e, doc p !! btn = Some e ∧ disabled e = false ∧ "btn--disabled" ∉ classList e.

(** *** The listener, element by element *)

(** The document after [sizeButtons.forEach(b => b.classList.remove("active"))]. *)
Definition deselect_all (L : list node) (d : list Element) : list Element :=
  foldl (λ d' b, alter (set_classList (token_remove "active")) b d') d L.

(** The element at position [m] after the listener of a button [b] that
    is not disabled ran, [e] being that element before and [size] the
    button's [dataset.size]. *)
Definition after (env : Env) (b : node) (size : jsval) (m : node) (e : Element) : Element :=
  let upd (c : bool) (f : Element → Element) (x : Element) := if c then f x else x in
  let e1 := upd (bool_decide (m ∈ sizeButtons env)) (set_classList (token_remove "active")) e in
  let e2 := upd (bool_decide (m = b)) (set_classList (token_add "active")) e1 in
  match sizeInput env with
  | None => e2
  | Some input =>
      let e3 := upd (bool_decide (m = input)) (set_value size) e2 in
      match addToCartBtn env with
      | None => e3
      | Some btn =>
          upd (bool_decide (m = btn))
            (λ x, set_classList (token_remove "btn--disabled") (set_disabled false x)) e3
      end
  end.

(** What no click changes of an element: its id, its data attributes, its
    text, the class tokens other than ["active"] and ["btn--disabled"]; and
    what a click changes in one direction only. *)
Definition stable (e e' : Element) : Prop :=
  elem_id e' = elem_id e ∧ dataset e' = dataset e ∧ textContent e' = textContent e
  ∧ (∀ c, c ≠ "active" → c ≠ "btn--disabled" → c ∈ classList e' ↔ c ∈ classList e)
  ∧ (disabled e = false → disabled e' = false)
  ∧ ("btn--disabled" ∉ classList e → "btn--disabled" ∉ classList e').

End Product.

(** ** What happens on the page after it is ready *)

Module Session.

(** [Click n]: a click event reaches the element [n] (a click on an
    element is one such event for it and for each of its ancestors, in
    that order); [Elapse ms]: [ms] milliseconds pass. *)
Inductive Event : Type :=
  | Click (n : node)
  | Elapse (ms : N).

Definition step (env : Product.Env) (ev : Event) (p : Page) : Page :=
  match ev with
  | Click n => Product.click env n p
  | Elapse ms => elapse ms p
  end.

Definition run (env : Product.Env) (evs : list Event) (p : Page) : Page :=
  foldl (λ q ev, step env ev q) p evs.

(** The time a sequence of events takes. *)
Fixpoint elapsed (evs : list Event) : N :=
  match evs with
  | [] => 0
  | Click _ :: evs' => elapsed evs'
  | Elapse ms :: evs' => ms + elapsed evs'
  end.

(** The time one event takes. *)
Definition duration (ev : Event) : N :=
  match ev with
  | Click _ => 0
  | Elapse ms => ms
  end.

End Session.

(** ** A product page *)

Module Demo.

Definition element (i : string) (cls : list string) (size : option string)
    (text : list N) (dis : bool) : Element :=
  {| elem_id := i; classList := cls;
     dataset := match size with Some s => {[ "size" := s ]} | None => ∅ end;
     textContent := text; value := undefined; disabled := dis |}.

(** "Item added" *)
Definition item_added : list N :=
  [73; 116; 101; 109; 32; 97; 100; 100; 101; 100]%N.

(** A toast, the options S, M and L, a sold-out XL, an option without
    [data-size], the hidden input and the add-to-cart button. *)
Definition page : Page :=
  load [ element "toast" ["toast"] None item_added false;
         element "" ["option"] (Some "S") [] false;
         element "" ["option"] (Some "M") [] false;
         element "" ["option"] (Some "L") [] false;
         element "" ["option"; "disabled"] (Some "XL") [] false;
         element "" ["option"] None [] false;
         element "selectedSize" [] None [] false;
         element "addToCartBtn" ["btn"; "btn--disabled"] None [] true ] 0.

(** The same page with a toast that holds only white space. *)
Definition blank_toast : Page :=
  load (<[0 := element "toast" ["toast"] None [32; 10; 9; 160; 32]%N false]> (doc page)) 0.

(** Markup in which two options carry ["active"], one of them sold out. *)
Definition two_active : Page :=
  load [ element "" ["option"; "active"] (Some "S") [] false;
         element "" ["option"; "disabled"; "active"] (Some "M") [] false;
         element "selectedSize" [] None [] false;
         element "addToCartBtn" ["btn"; "btn--disabled"] None [] true ] 0.

End Demo.

(** ** The two scripts on one page *)

Module Interplay.

(** What a click may change of the element at position [m], and where. *)
Definition confined (env : Product.Env) (m : node) (e e' : Element) : Prop :=
  (Product.sizeInput env ≠ Some m → value e' = value e)
  ∧ (Product.addToCartBtn env ≠ Some m →
     disabled e' = disabled e
     ∧ ("btn--disabled" ∈ classList e' ↔ "btn--disabled" ∈ classList e))
  ∧ (m ∉ Product.sizeButtons env → "active" ∈ classList e' ↔ "active" ∈ classList e).

(** Two elements that differ at most in the ["show"] token. *)
Definition same_but_show (e e' : Element) : Prop :=
  elem_id e' = elem_id e ∧ dataset e' = dataset e ∧ textContent e' = textContent e
  ∧ value e' = value e ∧ disabled e' = disabled e
  ∧ (∀ c, c ≠ "show" → c ∈ classList e' ↔ c ∈ classList e).

(** The clicks of a sequence of events, in order. *)
Fixpoint clicks_of (evs : list Session.Event) : list node :=
  match evs with
  | [] => []
  | Session.Click n :: evs' => n :: clicks_of evs'
  | Session.Elapse _ :: evs' => clicks_of evs'
  end.

End Interplay.

(** ** Pages with an element missing *)

Module Pages.

(** Three options, one of them sold out, and the add-to-cart button; no
    hidden input. *)
Definition no_input : Page :=
  load [ Demo.element "" ["option"] (Some "S") [] false;
         Demo.element "" ["option"; "active"] (Some "M") [] false;
         Demo.element "" ["option"; "disabled"] (Some "L") [] false;
         Demo.element "addToCartBtn" ["btn"; "btn--disabled"] None [] true ] 0.

(** Three options and the hidden input; no add-to-cart button. *)
Definition no_button : Page :=
  load [ Demo.element "" ["option"] (Some "S") [] false;
         Demo.element "" ["option"; "active"] (Some "M") [] false;
         Demo.element "" ["option"; "disabled"] (Some "L") [] false;
         Demo.element "selectedSize" [] None [] false ] 0.

(** A toast that carries ["show"] in the markup already. *)
Definition shown_toast : Page :=
  load [ Demo.element "toast" ["toast"; "show"] None Demo.item_added false ] 0.

(** A page whose add-to-cart button is enabled in the markup. *)
Definition enabled_button : Page :=
  load [ Demo.element "" ["option"] (Some "S") [] false;
         Demo.element "" ["option"; "disabled"] (Some "M") [] false;
         Demo.element "selectedSize" [] None [] false;
         Demo.element "addToCartBtn" ["btn"] None [] false ] 0.

(** Options inside options: the option S (0) holds the option M (1) and
    the sold-out option L (2); the option XL (3) holds a [span] (4); then
    the hidden input (5) and the add-to-cart button (6). *)
Definition nested : Page :=
  load [ Demo.element "" ["option"] (Some "S") [] false;
         Demo.element "" ["option"] (Some "M") [] false;
         Demo.element "" ["option"; "disabled"] (Some "L") [] false;
         Demo.element "" ["option"] (Some "XL") [] false;
         Demo.element "" [] None [] false;
         Demo.element "selectedSize" [] None [] false;
         Demo.element "addToCartBtn" ["btn"; "btn--disabled"] None [] true ] 0.

Definition nested_tree (n : node) : option node :=
  match n with
  | 1 | 2 => Some 0
  | 4 => Some 3
  | _ => None
  end.

(** A document in which no element is inside another. *)
Definition flat_tree (n : node) : option node := None.

End Pages.

(** * Proofs *)

(** ** Token lists *)

Section Tokens.
Implicit Types (c x : string) (l : list string).

Lemma elem_of_token_add x c l : x ∈ token_add c l ↔ x = c ∨ x ∈ l.
Proof.
  unfold token_add. case_bool_decide as Hc.
  - split; [by right | intros [-> | ?]; done].
  - rewrite elem_of_app, list_elem_of_singleton. tauto.
Qed.

Lemma elem_of_token_remove x c l : x ∈ token_remove c l ↔ x ≠ c ∧ x ∈ l.
Proof. unfold token_remove. by rewrite list_elem_of_filter. Qed.

Lemma token_remove_app c l1 l2 :
  token_remove c (l1 ++ l2) = token_remove c l1 ++ token_remove c l2.
Proof. unfold token_remove. apply filter_app. Qed.

Lemma token_remove_absent c l : c ∉ l → token_remove c l = l.
Proof.
  induction l as [| y l IH]; [done |].
  rewrite not_elem_of_cons. intros [Hy Hl]. unfold token_remove in *.
  rewrite filter_cons_True by done. by rewrite IH.
Qed.

Lemma token_remove_idemp c l : token_remove c (token_remove c l) = token_remove c l.
Proof.
  apply token_remove_absent. rewrite elem_of_token_remove. by intros [? _].
Qed.

Lemma token_remove_comm c c' l :
  token_remove c (token_remove c' l) = token_remove c' (token_remove c l).
Proof.
  induction l as [| y l IH]; [done |]. unfold token_remove in *.
  destruct (decide (y = c)) as [Hc | Hc], (decide (y = c')) as [Hc' | Hc'].
  - rewrite (filter_cons_False (λ x, x ≠ c)), (filter_cons_False (λ x, x ≠ c')) by tauto.
    done.
  - rewrite (filter_cons_True (λ x, x ≠ c')), !(filter_cons_False (λ x, x ≠ c)) by tauto.
    done.
  - rewrite (filter_cons_True (λ x, x ≠ c)), !(filter_cons_False (λ x, x ≠ c')) by tauto.
    done.
  - rewrite !filter_cons_True by done. by rewrite IH.
Qed.

Lemma token_remove_add_same c l : token_remove c (token_add c l) = token_remove c l.
Proof.
  unfold token_add. case_bool_decide; [done |].
  rewrite token_remove_app. unfold token_remove at 2.
  rewrite filter_cons_False, filter_nil by tauto. apply app_nil_r.
Qed.

Lemma token_remove_add_other c c' l :
  c ≠ c' → token_remove c (token_add c' l) = token_add c' (token_remove c l).
Proof.
  intros Hne. unfold token_add.
  rewrite (bool_decide_ext (c' ∈ token_remove c l) (c' ∈ l))
    by (rewrite elem_of_token_remove; naive_solver).
  case_bool_decide; [done |].
  rewrite token_remove_app. f_equal. unfold token_remove.
  by rewrite filter_cons_True, filter_nil by done.
Qed.

Lemma token_add_idemp c l : token_add c (token_add c l) = token_add c l.
Proof.
  unfold token_add at 1. rewrite bool_decide_eq_true_2; [done |].
  apply elem_of_token_add. by left.
Qed.
End Tokens.

(** ** Reading the page *)

Lemma has_class_true d n c :
  has_class d n c = true ↔ ∃ e, d !! n = Some e ∧ c ∈ classList e.
Proof.
  unfold has_class. destruct (d !! n) as [e |]; [| naive_solver].
  rewrite bool_decide_eq_true. naive_solver.
Qed.

Lemma getElementById_Some s d n :
  getElementById s d = Some n → ∃ e, d !! n = Some e ∧ elem_id e = s.
Proof.
  unfold getElementById. destruct (list_find _ d) as [[i e] |] eqn:Hf; [| done].
  intros [= <-]. apply list_find_Some in Hf. naive_solver.
Qed.

Lemma elem_of_querySelectorAll_class c d n :
  n ∈ querySelectorAll_class c d ↔ has_class d n c = true.
Proof.
  unfold querySelectorAll_class. rewrite list_elem_of_filter, elem_of_seq.
  split; [tauto |]. intros H. split; [done |].
  apply has_class_true in H as (e & He & _). apply lookup_lt_Some in He. lia.
Qed.

Lemma filter_none (P : nat → Prop) `{!∀ n, Decision (P n)} (L : list nat) :
  (∀ n, n ∈ L → ¬ P n) → filter P L = [].
Proof.
  induction L as [| x L IH]; intros HP; [done |].
  rewrite filter_cons_False by (apply HP; set_solver).
  apply IH. intros n Hn. apply HP. set_solver.
Qed.

Lemma filter_unique (P : nat → Prop) `{!∀ n, Decision (P n)} (L : list nat) b :
  NoDup L → b ∈ L → (∀ n, n ∈ L → P n ↔ n = b) → filter P L = [b].
Proof.
  induction L as [| x L IH]; intros Hnd Hb HP; [by apply elem_of_nil in Hb |].
  apply NoDup_cons in Hnd as [Hx Hnd].
  destruct (decide (x = b)) as [-> | Hne].
  - rewrite filter_cons_True by (apply HP; set_solver). f_equal.
    apply filter_none. intros n Hn. rewrite HP by set_solver. by intros ->.
  - rewrite filter_cons_False by (rewrite HP by set_solver; done).
    apply IH; [done | set_solver |]. intros n Hn. apply HP. set_solver.
Qed.

Lemma NoDup_querySelectorAll_class c d : NoDup (querySelectorAll_class c d).
Proof. apply NoDup_filter, NoDup_seq. Qed.

Module ProductFacts.
Import Product.

Lemma forEach_deselect L p :
  forEach L (λ b, classList_remove b "active") p
  = (Normal tt, with_doc (deselect_all L) p).
Proof.
  revert p. induction L as [| b L IH]; intros p.
  - by destruct p.
  - cbn. unfold mbind, M_bind, bind. cbn. rewrite IH. by destruct p.
Qed.

Lemma deselect_all_lookup L d m :
  deselect_all L d !! m
  = (if bool_decide (m ∈ L) then set_classList (token_remove "active") else id)
      <$> d !! m.
Proof.
  revert d. induction L as [| b L IH]; intros d.
  - cbn. by destruct (d !! m).
  - change (deselect_all (b :: L) d)
      with (deselect_all L (alter (set_classList (token_remove "active")) b d)).
    rewrite IH. destruct (decide (m = b)) as [-> | Hne].
    + rewrite list_lookup_alter_eq. rewrite (bool_decide_eq_true_2 (b ∈ b :: L)) by set_solver.
      destruct (d !! b) as [e |]; [| done]. cbn. case_bool_decide; [| done].
      f_equal. destruct e. unfold set_classList. cbn [classList]. f_equal.
      apply token_remove_idemp.
    + rewrite list_lookup_alter_ne by done.
      rewrite (bool_decide_ext (m ∈ b :: L) (m ∈ L)); [done |].
      rewrite elem_of_cons. naive_solver.
Qed.

Lemma onClick_disabled env b p :
  has_class (doc p) b "disabled" = true → onClick env b p = (Normal tt, p).
Proof.
  intros H. unfold onClick, mbind, M_bind, bind, classList_contains. by rewrite H.
Qed.

Lemma lookup_alter_if (f : Element → Element) (d : list Element) i j :
  alter f i d !! j = (if bool_decide (j = i) then f else id) <$> d !! j.
Proof.
  case_bool_decide as H.
  - subst. apply list_lookup_alter_eq.
  - rewrite list_lookup_alter_ne by done. by destruct (d !! j).
Qed.

Lemma onClick_enabled env b p :
  has_class (doc p) b "disabled" = false →
  onClick env b p =
    let d1 := alter (set_classList (token_add "active")) b
                (deselect_all (sizeButtons env) (doc p)) in
    let size := dataset_of d1 b "size" in
    match sizeInput env with
    | None => (Throw TypeError, mkPage d1 (now p) (timers p))
    | Some input =>
        let d2 := alter (set_value size) input d1 in
        match addToCartBtn env with
        | None => (Throw TypeError, mkPage d2 (now p) (timers p))
        | Some btn =>
            (Normal tt,
             mkPage (alter (set_classList (token_remove "btn--disabled")) btn
                       (alter (set_disabled false) btn d2))
                    (now p) (timers p))
        end
    end.
Proof.
  intros H. unfold onClick, mbind, M_bind, bind, classList_contains. rewrite H.
  rewrite forEach_deselect. cbn.
  destruct (sizeInput env) as [input |]; [| done]. cbn.
  destruct (addToCartBtn env) as [btn |]; done.
Qed.

(** The class changes leave [dataset] alone. *)
Lemma dataset_of_selected L d b k :
  dataset_of (alter (set_classList (token_add "active")) b (deselect_all L d)) b k
  = dataset_of d b k.
Proof.
  unfold dataset_of. rewrite lookup_alter_if, deselect_all_lookup.
  destruct (d !! b) as [e |]; [| done]. cbn.
  by repeat case_bool_decide.
Qed.

(** Element by element, the listener of an enabled button does what
    [after] says, also when it ends in a [TypeError]. *)
Lemma onClick_lookup env b p m :
  has_class (doc p) b "disabled" = false →
  doc (onClick env b p).2 !! m
  = after env b (dataset_of (doc p) b "size") m <$> doc p !! m.
Proof.
  intros H. rewrite (onClick_enabled _ _ _ H). cbv zeta.
  rewrite dataset_of_selected. unfold after.
  destruct (sizeInput env) as [input |], (addToCartBtn env) as [btn |]; cbn [snd doc];
    rewrite ?lookup_alter_if, deselect_all_lookup;
    destruct (doc p !! m) as [e |]; cbn; try done;
    by repeat case_bool_decide.
Qed.

Lemma onClick_now_timers env b p :
  now (onClick env b p).2 = now p ∧ timers (onClick env b p).2 = timers p.
Proof.
  destruct (has_class (doc p) b "disabled") eqn:H.
  - by rewrite onClick_disabled.
  - rewrite (onClick_enabled _ _ _ H). cbv zeta.
    by destruct (sizeInput env), (addToCartBtn env).
Qed.

Lemma stable_refl e : stable e e.
Proof. by unfold stable. Qed.

Lemma stable_trans e1 e2 e3 : stable e1 e2 → stable e2 e3 → stable e1 e3.
Proof.
  unfold stable. intros (? & ? & ? & Hc1 & ? & ?) (? & ? & ? & Hc2 & ? & ?).
  repeat split; try congruence; try tauto.
  - intros ?. apply Hc1; [done .. |]. by apply Hc2.
  - intros ?. apply Hc2; [done .. |]. by apply Hc1.
Qed.

Local Ltac stable_tokens :=
  unfold stable, set_classList, set_value, set_disabled;
  cbn [elem_id classList dataset textContent value disabled];
  repeat split; try done; intros;
  rewrite ?elem_of_token_remove, ?elem_of_token_add in *; naive_solver.

Lemma stable_set_value v e : stable e (set_value v e).
Proof. stable_tokens. Qed.

Lemma stable_remove_active e : stable e (set_classList (token_remove "active") e).
Proof. stable_tokens. Qed.

Lemma stable_add_active e : stable e (set_classList (token_add "active") e).
Proof. stable_tokens. Qed.

Lemma stable_enable e :
  stable e (set_classList (token_remove "btn--disabled") (set_disabled false e)).
Proof. stable_tokens. Qed.

Lemma after_stable env b size m e : stable e (after env b size m e).
Proof.
  unfold after.
  assert (H1 : stable e (if bool_decide (m ∈ sizeButtons env)
                         then set_classList (token_remove "active") e else e)).
  { case_bool_decide; [apply stable_remove_active | apply stable_refl]. }
  set (e1 := if bool_decide (m ∈ sizeButtons env) then _ else _) in *.
  assert (H2 : stable e (if bool_decide (m = b)
                         then set_classList (token_add "active") e1 else e1)).
  { case_bool_decide; [| done]. eapply stable_trans; [done | apply stable_add_active]. }
  set (e2 := if bool_decide (m = b) then _ else _) in *.
  destruct (sizeInput env) as [input |]; [| done].
  assert (H3 : stable e (if bool_decide (m = input) then set_value size e2 else e2)).
  { case_bool_decide; [| done]. eapply stable_trans; [done | apply stable_set_value]. }
  set (e3 := if bool_decide (m = input) then _ else _) in *.
  destruct (addToCartBtn env) as [btn |]; [| done].
  case_bool_decide; [| done]. eapply stable_trans; [done | apply stable_enable].
Qed.

Lemma click_stable env n p m :
  option_Forall2 stable (doc p !! m) (doc (click env n p) !! m).
Proof.
  assert (Hrefl : option_Forall2 stable (doc p !! m) (doc p !! m)).
  { destruct (doc p !! m); constructor. apply stable_refl. }
  unfold click. case_bool_decide; [| done].
  destruct (has_class (doc p) n "disabled") eqn:Hd.
  - by rewrite onClick_disabled.
  - rewrite onClick_lookup by done.
    destruct (doc p !! m); constructor. apply after_stable.
Qed.

Lemma clicks_snoc env ns n p :
  clicks env (ns ++ [n]) p = click env n (clicks env ns p).
Proof. unfold clicks. by rewrite foldl_app. Qed.

Lemma clicks_stable env ns p m :
  option_Forall2 stable (doc p !! m) (doc (clicks env ns p) !! m).
Proof.
  induction ns as [| n ns IH] using rev_ind.
  - change (clicks env [] p) with p.
    destruct (doc p !! m); constructor. apply stable_refl.
  - rewrite clicks_snoc.
    pose proof (click_stable env n (clicks env ns p) m) as Hc.
    destruct IH; inversion Hc; subst; constructor.
    eapply stable_trans; eauto.
Qed.

Lemma stable_has_class d d' m c :
  option_Forall2 stable (d !! m) (d' !! m) →
  c ≠ "active" → c ≠ "btn--disabled" →
  has_class d' m c = has_class d m c.
Proof.
  intros H ? ?. unfold has_class. destruct H as [e e' (_ & _ & _ & Hc & _) |]; [| done].
  apply bool_decide_ext. by apply Hc.
Qed.

Lemma stable_dataset_of d d' m k :
  option_Forall2 stable (d !! m) (d' !! m) → dataset_of d' m k = dataset_of d m k.
Proof.
  intros H. unfold dataset_of. destruct H as [e e' (_ & -> & _) |]; done.
Qed.

Local Ltac after_cases :=
  unfold after, set_classList, set_value, set_disabled;
  repeat match goal with
         | H : sizeInput _ = _ |- _ => rewrite H
         | H : addToCartBtn _ = _ |- _ => rewrite H
         end;
  repeat case_bool_decide;
  cbn [elem_id classList dataset textContent value disabled];
  rewrite ?elem_of_token_remove, ?elem_of_token_add.

Lemma after_value env b size input e :
  sizeInput env = Some input → value (after env b size input e) = size.
Proof.
  intros Hi. unfold after. rewrite Hi, (bool_decide_eq_true_2 (input = input)) by done.
  destruct (addToCartBtn env); [| done]. by case_bool_decide.
Qed.

Lemma after_active env b size m e :
  "active" ∈ classList (after env b size m e)
  ↔ m = b ∨ ((m ∉ sizeButtons env) ∧ "active" ∈ classList e).
Proof.
  destruct (sizeInput env) as [input |] eqn:Hi, (addToCartBtn env) as [btn |] eqn:Hb;
    after_cases; naive_solver.
Qed.

Lemma after_enabled env b size input btn e :
  sizeInput env = Some input → addToCartBtn env = Some btn →
  disabled (after env b size btn e) = false
  ∧ "btn--disabled" ∉ classList (after env b size btn e).
Proof. intros Hi Hb. after_cases; naive_solver. Qed.

(** The references the page-ready callback holds stay valid. *)
Lemma sizeButtons_lookup p0 ns b :
  b ∈ sizeButtons (ready p0) → is_Some (doc (clicks (ready p0) ns p0) !! b).
Proof.
  intros Hb. apply elem_of_querySelectorAll_class, has_class_true in Hb as (e & He & _).
  pose proof (clicks_stable (ready p0) ns p0 b) as Hs. rewrite He in Hs.
  inversion Hs. eauto.
Qed.

Lemma getElementById_lookup p0 s ns n :
  getElementById s (doc p0) = Some n → is_Some (doc (clicks (ready p0) ns p0) !! n).
Proof.
  intros Hn. apply getElementById_Some in Hn as (e & He & _).
  pose proof (clicks_stable (ready p0) ns p0 n) as Hs. rewrite He in Hs.
  inversion Hs. eauto.
Qed.

Lemma click_now_timers env n p :
  now (click env n p) = now p ∧ timers (click env n p) = timers p.
Proof.
  unfold click. case_bool_decide; [| done]. apply onClick_now_timers.
Qed.

Lemma click_enabled_button env b p :
  b ∈ sizeButtons env → has_class (doc p) b "disabled" = false →
  click env b p = (onClick env b p).2.
Proof. intros Hb _. unfold click. by rewrite bool_decide_eq_true_2. Qed.

(** After the listener of an enabled button [b], [b] is the one selected
    option. *)
Lemma selected_after_click env b p :
  NoDup (sizeButtons env) → b ∈ sizeButtons env → is_Some (doc p !! b) →
  has_class (doc p) b "disabled" = false →
  selected env (click env b p) = [b].
Proof.
  intros Hnd Hb [e He] Hd. rewrite click_enabled_button by done.
  assert (Hact : ∀ n, n ∈ sizeButtons env →
            has_class (doc (onClick env b p).2) n "active" = true ↔ n = b).
  { intros n Hn. rewrite has_class_true, onClick_lookup by done. split.
    - intros (e' & He' & Ha). destruct (doc p !! n) as [en |]; [| done].
      injection He' as <-. apply after_active in Ha. tauto.
    - intros ->. rewrite He. eexists. split; [done |]. apply after_active. by left. }
  unfold selected. by apply filter_unique.
Qed.

Lemma selected_valid_click p0 pre b :
  b ∈ sizeButtons (ready p0) →
  has_class (doc (clicks (ready p0) pre p0)) b "disabled" = false →
  selected (ready p0) (click (ready p0) b (clicks (ready p0) pre p0)) = [b].
Proof.
  intros Hb Hd. apply selected_after_click; try done.
  - apply NoDup_querySelectorAll_class.
  - by apply sizeButtons_lookup.
Qed.

Lemma onClick_outcome env b p :
  has_class (doc p) b "disabled" = false →
  (onClick env b p).1
  = match sizeInput env, addToCartBtn env with
    | Some _, Some _ => Normal tt
    | _, _ => Throw TypeError
    end.
Proof.
  intros Hd. rewrite onClick_enabled by done. cbv zeta.
  by destruct (sizeInput env), (addToCartBtn env).
Qed.

Lemma onClick_normal env b p input btn :
  sizeInput env = Some input → addToCartBtn env = Some btn →
  (onClick env b p).1 = Normal tt.
Proof.
  intros Hi Hb. destruct (has_class (doc p) b "disabled") eqn:Hd.
  - by rewrite onClick_disabled.
  - rewrite onClick_enabled by done. cbv zeta. by rewrite Hi, Hb.
Qed.

(** What a click on an enabled option does when the hidden input and the
    add-to-cart control are on the page. *)
Lemma valid_click p0 pre b input btn :
  let env := ready p0 in
  let p := clicks env pre p0 in
  sizeInput env = Some input → addToCartBtn env = Some btn →
  b ∈ sizeButtons env → has_class (doc p) b "disabled" = false →
  onClick env b p = (Normal tt, click env b p)
  ∧ value <$> doc (click env b p) !! input = Some (dataset_of (doc p) b "size")
  ∧ has_class (doc (click env b p)) b "active" = true
  ∧ enabled (click env b p) btn.
Proof.
  intros env p Hi Hbtn Hb Hd.
  destruct (sizeButtons_lookup p0 pre b Hb) as [eb Heb].
  destruct (getElementById_lookup p0 _ pre input Hi) as [ei Hei].
  destruct (getElementById_lookup p0 _ pre btn Hbtn) as [ea Hea].
  fold env in Heb, Hei, Hea. fold p in Heb, Hei, Hea.
  rewrite click_enabled_button by done. repeat split.
  - pose proof (onClick_normal env b p input btn Hi Hbtn) as Hn.
    destruct (onClick env b p) as [o q]. cbn in *. by subst.
  - rewrite onClick_lookup, Hei by done. cbn. f_equal. by apply after_value.
  - apply has_class_true. rewrite onClick_lookup, Heb by done.
    eexists. split; [done |]. apply after_active. by left.
  - unfold enabled. rewrite onClick_lookup, Hea by done.
    eexists. split; [done |]. by eapply after_enabled.
Qed.

Lemma enabled_stable p q btn :
  option_Forall2 stable (doc p !! btn) (doc q !! btn) → enabled p btn → enabled q btn.
Proof.
  intros Hs (e & He & Hf & Hc). rewrite He in Hs. inversion Hs as [? e' Hst |]; subst.
  destruct Hst as (_ & _ & _ & _ & Hf' & Hc'). exists e'. eauto.
Qed.

Lemma Page_eq p q : doc p = doc q → now p = now q → timers p = timers q → p = q.
Proof. destruct p, q. cbn. by intros -> -> ->. Qed.

Lemma remove_btn_add_active l :
  token_remove "btn--disabled" (token_add "active" l)
  = token_add "active" (token_remove "btn--disabled" l).
Proof. by apply token_remove_add_other. Qed.

Lemma remove_btn_remove_active l :
  token_remove "btn--disabled" (token_remove "active" l)
  = token_remove "active" (token_remove "btn--disabled" l).
Proof. apply token_remove_comm. Qed.

Local Ltac normalize_tokens :=
  repeat first
    [ rewrite remove_btn_add_active
    | rewrite remove_btn_remove_active
    | rewrite token_remove_idemp
    | rewrite token_remove_add_same
    | rewrite token_add_idemp ].

Lemma after_idemp env b size m e :
  after env b size m (after env b size m e) = after env b size m e.
Proof.
  destruct e as [i cl ds tx v dis]. unfold after.
  destruct (sizeInput env) as [input |], (addToCartBtn env) as [btn |];
    repeat match goal with
           | |- context [bool_decide ?P] => destruct (bool_decide P)
           end;
    cbv beta iota zeta delta [set_classList set_value set_disabled
      elem_id classList dataset textContent value disabled];
    f_equal; normalize_tokens; reflexivity.
Qed.

Lemma click_idemp env b p : click env b (click env b p) = click env b p.
Proof.
  destruct (decide (b ∈ sizeButtons env)) as [Hb | Hb];
    [| unfold click; by rewrite !bool_decide_eq_false_2].
  destruct (has_class (doc p) b "disabled") eqn:Hd.
  { assert (Hp : click env b p = p).
    { unfold click. by rewrite bool_decide_eq_true_2, onClick_disabled. }
    by rewrite !Hp. }
  rewrite (click_enabled_button env b p) by done.
  set (p' := (onClick env b p).2).
  assert (Hst : ∀ m, option_Forall2 stable (doc p !! m) (doc p' !! m)).
  { intros m. pose proof (click_stable env b p m) as Hs.
    by rewrite click_enabled_button in Hs. }
  assert (Hd' : has_class (doc p') b "disabled" = false).
  { rewrite (stable_has_class (doc p) (doc p')) by done. exact Hd. }
  rewrite click_enabled_button by done.
  destruct (onClick_now_timers env b p') as [Hn Ht].
  apply Page_eq; [| done | done].
  apply list_eq. intros m.
  rewrite onClick_lookup by done.
  rewrite (stable_dataset_of (doc p) (doc p')) by done.
  subst p'. rewrite onClick_lookup by done.
  destruct (doc p !! m) as [e |]; [| done]. cbn. f_equal. apply after_idemp.
Qed.

(** The way up from an element never runs out of steps: more fuel than
    the element's position gives the same path. *)
Lemma path_from_enough parentNode fuel n :
  n ≤ fuel → path_from parentNode fuel n = event_path parentNode n.
Proof.
  unfold event_path. revert fuel.
  induction (lt_wf n) as [n _ IH]. intros fuel Hf.
  destruct fuel as [| fuel], n as [| n]; try lia; cbn [path_from].
  - done.
  - destruct (parentNode 0) as [q |]; [| done].
    by destruct (Nat.ltb_spec q 0); [lia |].
  - destruct (parentNode (S n)) as [q |]; [| done].
    destruct (Nat.ltb_spec q (S n)) as [Hq | Hq]; [| done].
    f_equal. rewrite (IH q Hq fuel), (IH q Hq n) by lia. done.
Qed.

(** A click reaches the clicked element first. *)
Lemma event_path_head parentNode n :
  ∃ ancestors, event_path parentNode n = n :: ancestors.
Proof. unfold event_path. destruct n; cbn [path_from]; eauto. Qed.

Lemma clicks_append env ns1 ns2 p :
  clicks env (ns1 ++ ns2) p = clicks env ns2 (clicks env ns1 p).
Proof. unfold clicks. apply foldl_app. Qed.

(** Listeners of disabled options, and elements without a listener, leave
    the page alone. *)
Lemma clicks_idle env ns p :
  (∀ n, n ∈ ns → n ∈ sizeButtons env → has_class (doc p) n "disabled" = true) →
  clicks env ns p = p.
Proof.
  induction ns as [| n ns IH]; intros H; [done |].
  assert (Hn : click env n p = p).
  { unfold click. case_bool_decide as Hin; [| done].
    rewrite onClick_disabled; [done |]. apply H; [| done]. apply elem_of_cons. by left. }
  change (clicks env (n :: ns) p) with (clicks env ns (click env n p)).
  rewrite Hn. apply IH. intros a Ha. apply H. apply elem_of_cons. by right.
Qed.

Lemma dispatches_clicks env parentNode ts p :
  dispatches env parentNode ts p
  = clicks env (concat (event_path parentNode <$> ts)) p.
Proof.
  revert p. induction ts as [| t ts IH]; intros p; [done |].
  cbn [fmap list_fmap concat]. rewrite clicks_append, <- IH. done.
Qed.

Lemma at_most_one_clicks p0 ns :
  length (selected (ready p0) p0) ≤ 1 →
  length (selected (ready p0) (clicks (ready p0) ns p0)) ≤ 1.
Proof.
  intros H0. induction ns as [| n ns IH] using rev_ind; [done |].
  rewrite clicks_snoc.
  destruct (decide (n ∈ sizeButtons (ready p0))) as [Hn | Hn].
  - destruct (has_class (doc (clicks (ready p0) ns p0)) n "disabled") eqn:Hd.
    + unfold click. by rewrite bool_decide_eq_true_2, onClick_disabled.
    + by rewrite selected_valid_click.
  - unfold click. by rewrite bool_decide_eq_false_2.
Qed.

(** Of the options a click reaches, the last one that is not disabled is
    the one selected afterwards. *)
Lemma selected_after_dispatch p0 pre parentNode t inner b outer :
  let env := ready p0 in
  let p := clicks env pre p0 in
  event_path parentNode t = inner ++ b :: outer →
  b ∈ sizeButtons env → has_class (doc p) b "disabled" = false →
  (∀ a, a ∈ outer → a ∈ sizeButtons env → has_class (doc p) a "disabled" = true) →
  selected env (dispatch env parentNode t p) = [b].
Proof.
  intros env p Hpath Hb Hd Houter. unfold dispatch. rewrite Hpath.
  rewrite clicks_append.
  change (clicks env (b :: outer) (clicks env inner p))
    with (clicks env outer (click env b (clicks env inner p))).
  assert (Hkeep : ∀ q n a, has_class (doc (click env n q)) a "disabled"
                           = has_class (doc q) a "disabled").
  { intros q n a. apply stable_has_class; [apply click_stable | done | done]. }
  assert (Hkeeps : ∀ ns q a, has_class (doc (clicks env ns q)) a "disabled"
                             = has_class (doc q) a "disabled").
  { intros ns q a. apply stable_has_class; [apply clicks_stable | done | done]. }
  rewrite clicks_idle.
  - subst p. rewrite <- clicks_append. apply selected_valid_click; [done |].
    rewrite clicks_append, Hkeeps. exact Hd.
  - intros a Ha Hin. rewrite Hkeep, Hkeeps. by apply Houter.
Qed.

End ProductFacts.

(** ** The size selector: results *)

Module ProductSpec.
Import Product ProductFacts.

(** The page of [Demo.page]: the options are the elements 1 to 5, the hidden
    input is 6, the add-to-cart button 7. *)
Example demo_ready :
  ready Demo.page
  = {| sizeButtons := [1; 2; 3; 4; 5]; sizeInput := Some 6; addToCartBtn := Some 7 |}.
Proof. reflexivity. Qed.

(** Clicking M: only M is selected, the hidden input holds "M", the
    add-to-cart button is enabled. *)
Example click_M :
  let p := click (ready Demo.page) 2 Demo.page in
  selected (ready Demo.page) p = [2]
  ∧ value <$> doc p !! 6 = Some (JString "M")
  ∧ (disabled <$> doc p !! 7, classList <$> doc p !! 7) = (Some false, Some ["btn"]).
Proof. vm_compute. done. Qed.

(** Clicking S then L leaves only L selected. *)
Example click_S_then_L :
  selected (ready Demo.page) (clicks (ready Demo.page) [1; 3] Demo.page) = [3].
Proof. vm_compute. reflexivity. Qed.

(** Without the hidden input the listener marks the option and then ends
    in a [TypeError], before it reaches the add-to-cart button. *)
Example click_without_input :
  let p0 := load (take 6 (doc Demo.page) ++ drop 7 (doc Demo.page)) 0 in
  (onClick (ready p0) 1 p0).1 = Throw TypeError
  ∧ selected (ready p0) (click (ready p0) 1 p0) = [1]
  ∧ disabled <$> doc (click (ready p0) 1 p0) !! 6 = Some true.
Proof. vm_compute. done. Qed.

(** C1, as stated, fails on markup that already marks two options: a click
    on the sold-out one changes nothing, and both stay marked. *)
Lemma two_selected_after_click :
  ¬ length (selected (ready Demo.two_active)
              (clicks (ready Demo.two_active) [1] Demo.two_active)) ≤ 1.
Proof. vm_compute. lia. Qed.

(** Options inside options: a click on M, which is inside S, runs the
    listener of M and then the listener of S, so S ends up selected and
    the hidden input holds "S"; a click on the [span] inside XL selects
    XL. *)
Example nested_click_selects_outer :
  let env := ready Pages.nested in
  event_path Pages.nested_tree 1 = [1; 0]
  ∧ selected env (dispatch env Pages.nested_tree 1 Pages.nested) = [0]
  ∧ value <$> doc (dispatch env Pages.nested_tree 1 Pages.nested) !! 5
    = Some (JString "S")
  ∧ selected env (dispatch env Pages.nested_tree 4 Pages.nested) = [3].
Proof. vm_compute. done. Qed.

(** C1 (amended): if at most one option carries the ["active"] marker when
    the listeners are attached, then at most one does after every sequence
    of clicks, in whatever order the click events reach the elements; and
    whatever the page was, after a click that reaches an option that is not
    disabled, the outermost such option on the way from the clicked element
    to the root, and only that option, carries the marker: the clicked
    option itself when no option around it is enabled. *)
Theorem selection_exclusive p0 :
  let env := ready p0 in
  (length (selected env p0) ≤ 1 →
   ∀ ns, length (selected env (clicks env ns p0)) ≤ 1)
  ∧ (length (selected env p0) ≤ 1 →
     ∀ parentNode ts, length (selected env (dispatches env parentNode ts p0)) ≤ 1)
  ∧ (∀ pre parentNode t inner b outer,
       event_path parentNode t = inner ++ b :: outer →
       b ∈ sizeButtons env →
       has_class (doc (clicks env pre p0)) b "disabled" = false →
       (∀ a, a ∈ outer → a ∈ sizeButtons env →
             has_class (doc (clicks env pre p0)) a "disabled" = true) →
       selected env (dispatch env parentNode t (clicks env pre p0)) = [b]).
Proof.
  intros env. split; [| split].
  - intros H0 ns. by apply at_most_one_clicks.
  - intros H0 parentNode ts. rewrite dispatches_clicks. by apply at_most_one_clicks.
  - intros pre parentNode t inner b outer. apply selected_after_dispatch.
Qed.

Lemma selection_exclusive_witness :
  length (selected (ready Demo.page) (clicks (ready Demo.page) [1; 4; 3] Demo.page)) ≤ 1
  ∧ length (selected (ready Pages.nested)
              (dispatches (ready Pages.nested) Pages.nested_tree [2; 1; 4] Pages.nested)) ≤ 1
  ∧ selected (ready Pages.nested)
      (dispatch (ready Pages.nested) Pages.nested_tree 1
         (clicks (ready Pages.nested) [3] Pages.nested))
    = [0].
Proof.
  split; [| split].
  - apply (proj1 (selection_exclusive Demo.page)). vm_compute. lia.
  - apply (proj1 (proj2 (selection_exclusive Pages.nested))). vm_compute. lia.
  - apply (proj2 (proj2 (selection_exclusive Pages.nested)) [3] Pages.nested_tree 1 [1] 0 []).
    + reflexivity.
    + apply (bool_decide_unpack (0 ∈ sizeButtons (ready Pages.nested))).
      vm_compute. exact I.
    + vm_compute. reflexivity.
    + intros a Ha. by apply elem_of_nil in Ha.
Defined.

(** C2: a click on an option that does not carry ["disabled"] completes,
    leaves the option's [data-size] value in the hidden input whatever the
    input held, marks the option ["active"], and enables the add-to-cart
    control: [disabled] is false and ["btn--disabled"] is gone. *)
Theorem click_selects_size p0 pre b input btn :
  let env := ready p0 in
  let p := clicks env pre p0 in
  let p' := click env b p in
  sizeInput env = Some input → addToCartBtn env = Some btn →
  b ∈ sizeButtons env → has_class (doc p) b "disabled" = false →
  onClick env b p = (Normal tt, p')
  ∧ value <$> doc p' !! input = Some (dataset_of (doc p) b "size")
  ∧ has_class (doc p') b "active" = true
  ∧ selected env p' = [b]
  ∧ enabled p' btn.
Proof.
  intros env p p' Hi Hbtn Hb Hd.
  destruct (valid_click p0 pre b input btn Hi Hbtn Hb Hd) as (Ho & Hv & Ha & He).
  repeat split; try done.
  by apply selected_valid_click.
Qed.

Lemma click_selects_size_witness :
  let env := ready Demo.page in
  let p' := click env 2 (clicks env [1] Demo.page) in
  onClick env 2 (clicks env [1] Demo.page) = (Normal tt, p')
  ∧ value <$> doc p' !! 6 = Some (JString "M")
  ∧ has_class (doc p') 2 "active" = true
  ∧ selected env p' = [2]
  ∧ enabled p' 7.
Proof.
  apply (click_selects_size Demo.page [1] 2 6 7).
  - reflexivity.
  - reflexivity.
  - apply (bool_decide_unpack (2 ∈ sizeButtons (ready Demo.page))).
    vm_compute. exact I.
  - vm_compute. reflexivity.
Defined.

(** C3, as stated, fails when a disabled option is inside an enabled one:
    the guard ends the listener of the clicked option only, the click goes
    on to the option around it, and that one is selected, written to the
    hidden input, and the add-to-cart control enabled. *)
Lemma disabled_click_bubbles :
  let env := ready Pages.nested in
  let p' := dispatch env Pages.nested_tree 2 Pages.nested in
  2 ∈ sizeButtons env
  ∧ has_class (doc Pages.nested) 2 "disabled" = true
  ∧ selected env Pages.nested = [] ∧ selected env p' = [0]
  ∧ value <$> doc Pages.nested !! 5 = Some undefined
  ∧ value <$> doc p' !! 5 = Some (JString "S")
  ∧ disabled <$> doc Pages.nested !! 6 = Some true
  ∧ disabled <$> doc p' !! 6 = Some false.
Proof.
  split.
  - apply (bool_decide_unpack (2 ∈ sizeButtons (ready Pages.nested))).
    vm_compute. exact I.
  - vm_compute. done.
Qed.

(** C3 (amended): the listener of an option that carries ["disabled"]
    returns at once and changes nothing; and a click on such an option
    leaves the whole page as it was (the markers of every option, the value
    of the hidden input, the add-to-cart control) when no option around it
    is enabled, as when options are not nested. *)
Theorem disabled_click_noop env parentNode b p :
  has_class (doc p) b "disabled" = true →
  onClick env b p = (Normal tt, p)
  ∧ ((∀ a, a ∈ event_path parentNode b → a ∈ sizeButtons env →
           has_class (doc p) a "disabled" = true) →
     dispatch env parentNode b p = p).
Proof.
  intros Hd. split; [by apply onClick_disabled |].
  intros Hpath. unfold dispatch. by apply clicks_idle.
Qed.

Lemma disabled_click_noop_witness :
  onClick (ready Demo.page) 4 Demo.page = (Normal tt, Demo.page)
  ∧ dispatch (ready Demo.page) Pages.flat_tree 4 Demo.page = Demo.page.
Proof.
  destruct (disabled_click_noop (ready Demo.page) Pages.flat_tree 4 Demo.page)
    as [Hl Hc]; [vm_compute; reflexivity |].
  split; [exact Hl |]. apply Hc.
  intros a Ha _. change (event_path Pages.flat_tree 4) with [4] in Ha.
  apply list_elem_of_singleton in Ha. subst a. vm_compute. reflexivity.
Defined.

(** C4: once a click on an option that is not disabled has enabled the
    add-to-cart control, it is enabled after every further sequence of
    clicks, on any elements: [disabled] stays false and ["btn--disabled"]
    stays off. *)
Theorem addToCart_stays_enabled p0 pre b post input btn :
  let env := ready p0 in
  sizeInput env = Some input → addToCartBtn env = Some btn →
  b ∈ sizeButtons env →
  has_class (doc (clicks env pre p0)) b "disabled" = false →
  enabled (clicks env post (click env b (clicks env pre p0))) btn.
Proof.
  intros env Hi Hbtn Hb Hd.
  destruct (valid_click p0 pre b input btn Hi Hbtn Hb Hd) as (_ & _ & _ & He).
  eapply enabled_stable; [apply clicks_stable | exact He].
Qed.

Lemma addToCart_stays_enabled_witness :
  enabled (clicks (ready Demo.page) [4; 5; 0; 1]
             (click (ready Demo.page) 3 (clicks (ready Demo.page) [4] Demo.page))) 7.
Proof.
  apply (addToCart_stays_enabled Demo.page [4] 3 [4; 5; 0; 1] 6 7).
  - reflexivity.
  - reflexivity.
  - apply (bool_decide_unpack (3 ∈ sizeButtons (ready Demo.page))).
    vm_compute. exact I.
  - vm_compute. reflexivity.
Defined.

(** C8: clicking an option that is not disabled twice in a row leaves the
    page exactly as one click does, and the second click ends the way the
    first did. *)
Theorem click_twice env b p :
  b ∈ sizeButtons env → has_class (doc p) b "disabled" = false →
  click env b (click env b p) = click env b p
  ∧ (onClick env b (click env b p)).1 = (onClick env b p).1.
Proof.
  intros Hb Hd. split; [apply click_idemp |].
  rewrite !onClick_outcome; try done.
  rewrite (stable_has_class (doc p)); [done | apply click_stable | done | done].
Qed.

Lemma click_twice_witness :
  click (ready Demo.page) 1 (click (ready Demo.page) 1 Demo.page)
  = click (ready Demo.page) 1 Demo.page
  ∧ (onClick (ready Demo.page) 1 (click (ready Demo.page) 1 Demo.page)).1
    = (onClick (ready Demo.page) 1 Demo.page).1.
Proof.
  apply click_twice.
  - apply (bool_decide_unpack (1 ∈ sizeButtons (ready Demo.page))).
    vm_compute. exact I.
  - vm_compute. reflexivity.
Defined.

(** C9: no sequence of clicks adds the ["disabled"] marker to an element or
    removes it from one; the disabled options are those of the page as
    loaded. *)
Theorem disabled_marker_fixed p0 ns :
  let env := ready p0 in
  (∀ n, has_class (doc (clicks env ns p0)) n "disabled" = has_class (doc p0) n "disabled")
  ∧ disabledOptions env (clicks env ns p0) = disabledOptions env p0.
Proof.
  intros env.
  assert (H : ∀ n, has_class (doc (clicks env ns p0)) n "disabled"
                   = has_class (doc p0) n "disabled").
  { intros n. apply stable_has_class; [apply clicks_stable | done | done]. }
  split; [exact H |].
  unfold disabledOptions. apply list_filter_iff. intros n. by rewrite H.
Qed.

(** C10: a click on an option that is not disabled and has no [data-size]
    goes through like any other: the listener completes, the option is
    marked ["active"], the hidden input's value is overwritten with
    [undefined], and the add-to-cart control is enabled. *)
Theorem click_without_size p0 pre b input btn e :
  let env := ready p0 in
  let p := clicks env pre p0 in
  let p' := click env b p in
  sizeInput env = Some input → addToCartBtn env = Some btn →
  b ∈ sizeButtons env → has_class (doc p) b "disabled" = false →
  doc p !! b = Some e → dataset e !! "size" = None →
  onClick env b p = (Normal tt, p')
  ∧ has_class (doc p') b "active" = true
  ∧ value <$> doc p' !! input = Some undefined
  ∧ enabled p' btn.
Proof.
  intros env p p' Hi Hbtn Hb Hd He Hsize.
  destruct (valid_click p0 pre b input btn Hi Hbtn Hb Hd) as (Ho & Hv & Ha & Hen).
  repeat split; try done.
  fold env p p' in Hv. rewrite Hv. unfold dataset_of. by rewrite He, Hsize.
Qed.

Lemma click_without_size_witness :
  let env := ready Demo.page in
  let p := clicks env [2] Demo.page in
  let p' := click env 5 p in
  onClick env 5 p = (Normal tt, p')
  ∧ has_class (doc p') 5 "active" = true
  ∧ value <$> doc p' !! 6 = Some undefined
  ∧ enabled p' 7.
Proof.
  apply (click_without_size Demo.page [2] 5 6 7
           (Demo.element "" ["option"] None [] false)).
  - reflexivity.
  - reflexivity.
  - apply (bool_decide_unpack (5 ∈ sizeButtons (ready Demo.page))).
    vm_compute. exact I.
  - vm_compute. reflexivity.
  - vm_compute. reflexivity.
  - reflexivity.
Defined.

End ProductSpec.

(** ** The toast: results *)

Module ToastSpec.
Import Toast Session.

(** The toast "Item added" shows once the page is ready, still shows
    2599 ms later and no longer 2600 ms later. *)
Example toast_item_added :
  has_class (doc (ready Demo.page)) 0 "show" = true
  ∧ has_class (doc (elapse 2599 (ready Demo.page))) 0 "show" = true
  ∧ has_class (doc (elapse 2600 (ready Demo.page))) 0 "show" = false.
Proof. vm_compute. done. Qed.

Example trim_example :
  trim [32; 10; 73; 32; 116; 9; 65279]%N = [73; 32; 116]%N.
Proof. reflexivity. Qed.

Lemma trimStart_whitespace s :
  Forall (λ c, isWhiteSpace c = true) s → trimStart s = [].
Proof.
  induction 1 as [| c s Hc _ IH]; [done |]. cbn. by rewrite Hc.
Qed.

Lemma trim_whitespace s :
  Forall (λ c, isWhiteSpace c = true) s → trim s = [].
Proof. intros H. unfold trim. by rewrite trimStart_whitespace. Qed.

Lemma onReady_found p toast e :
  getElementById "toast" (doc p) = Some toast → doc p !! toast = Some e →
  onReady p =
    if 0 <? length (trim (textContent e))
    then (Normal tt,
          {| doc := alter (set_classList (token_add "show")) toast (doc p);
             now := now p;
             timers := enqueue {| due := now p + 2600; callback := HideToast toast |}
                         (timers p) |})
    else (Normal tt, p).
Proof.
  intros H He. unfold onReady, mbind, M_bind, bind, document_getElementById,
    textContent_get.
  rewrite H, He. cbn [default fmap option_fmap option_map]. unfold id.
  by destruct (0 <? length (trim (textContent e))).
Qed.

Lemma has_class_remove_same d n c :
  has_class (alter (set_classList (token_remove c)) n d) n c = false.
Proof.
  unfold has_class. rewrite list_lookup_alter_eq.
  destruct (d !! n) as [e |]; [| done]. cbn.
  apply bool_decide_eq_false_2. rewrite elem_of_token_remove. tauto.
Qed.

Lemma has_class_add_same d n c e :
  d !! n = Some e → has_class (alter (set_classList (token_add c)) n d) n c = true.
Proof.
  intros He. unfold has_class. rewrite list_lookup_alter_eq, He. cbn.
  apply bool_decide_eq_true_2, elem_of_token_add. by left.
Qed.

Lemma elapsed_snoc evs ev : elapsed (evs ++ [ev]) = (elapsed evs + duration ev)%N.
Proof.
  induction evs as [| [n | ms] evs IH]; cbn.
  - destruct ev; cbn; lia.
  - exact IH.
  - rewrite IH. lia.
Qed.

Lemma step_toast_inv env t0 toast k ev q :
  toast_inv t0 toast k q → toast_inv t0 toast (k + duration ev) (step env ev q).
Proof.
  intros [Hnow Hinv]. destruct ev as [n | ms]; cbn [step duration].
  - rewrite N.add_0_r.
    assert (Hnt : now (Product.click env n q) = now q
                  ∧ timers (Product.click env n q) = timers q).
    { apply ProductFacts.click_now_timers. }
    destruct Hnt as [Hn Ht].
    assert (Hc : has_class (doc (Product.click env n q)) toast "show"
                 = has_class (doc q) toast "show").
    { apply ProductFacts.stable_has_class;
        [apply ProductFacts.click_stable | done | done]. }
    split; [congruence |]. rewrite Ht, Hc. exact Hinv.
  - unfold elapse. case_bool_decide as Hk.
    + destruct Hinv as [Ht Hs]. rewrite Ht. cbn [fire due callback].
      destruct (N.leb_spec (t0 + 2600) (now q + ms)) as [Hfire | Hwait].
      * unfold toast_inv, run_callback, classList_remove, with_doc.
        cbn [now timers doc snd]. split; [lia |].
        rewrite bool_decide_eq_false_2 by lia.
        split; [done |]. apply has_class_remove_same.
      * unfold toast_inv. cbn [now timers doc]. split; [lia |].
        rewrite bool_decide_eq_true_2 by lia. done.
    + destruct Hinv as [Ht Hs]. rewrite Ht. unfold toast_inv.
      cbn [fire now timers doc]. split; [lia |].
      rewrite bool_decide_eq_false_2 by lia. done.
Qed.

Lemma run_toast_inv env t0 toast evs q :
  toast_inv t0 toast 0 q → toast_inv t0 toast (elapsed evs) (run env evs q).
Proof.
  intros H0. induction evs as [| ev evs IH] using rev_ind; [done |].
  rewrite elapsed_snoc. unfold run. rewrite foldl_app. cbn [foldl].
  by apply step_toast_inv.
Qed.

(** C5: when the toast has text left after trimming, the page-ready
    listener completes and the toast carries ["show"] at once; from then
    on, whatever clicks come in between, it carries ["show"] as long as less
    than 2600 ms have passed and no longer once 2600 ms have passed. *)
Theorem toast_shown_for_2600ms d t0 toast e env evs :
  let p0 := load d t0 in
  getElementById "toast" d = Some toast → d !! toast = Some e →
  trim (textContent e) ≠ [] →
  (onReady p0).1 = Normal tt
  ∧ has_class (doc (ready p0)) toast "show" = true
  ∧ has_class (doc (run env evs (ready p0))) toast "show"
    = bool_decide (elapsed evs < 2600)%N.
Proof.
  intros p0 Ht He Hmsg.
  assert (Hr : onReady p0 =
    (Normal tt,
     {| doc := alter (set_classList (token_add "show")) toast d;
        now := t0;
        timers := [ {| due := t0 + 2600; callback := HideToast toast |} ] |})).
  { rewrite (onReady_found p0 toast e) by done.
    destruct (trim (textContent e)) as [| c s]; [done |]. done. }
  assert (Hinv : toast_inv t0 toast 0 (ready p0)).
  { unfold ready. rewrite Hr. split; [cbn; lia |].
    rewrite bool_decide_eq_true_2 by lia. split; [done |].
    by eapply has_class_add_same. }
  split; [by rewrite Hr |]. split; [apply Hinv |].
  destruct (run_toast_inv env t0 toast evs _ Hinv) as [_ H].
  by case_bool_decide; destruct H.
Qed.

Lemma toast_shown_for_2600ms_witness :
  let env := Product.ready Demo.page in
  (onReady Demo.page).1 = Normal tt
  ∧ has_class (doc (ready Demo.page)) 0 "show" = true
  ∧ has_class (doc (run env [Elapse 1000; Click 2; Elapse 1599] (ready Demo.page))) 0 "show"
    = bool_decide (elapsed [Elapse 1000; Click 2; Elapse 1599] < 2600)%N.
Proof.
  apply (toast_shown_for_2600ms (doc Demo.page) 0 0
           (Demo.element "toast" ["toast"] None Demo.item_added false)).
  - reflexivity.
  - reflexivity.
  - vm_compute. discriminate.
Defined.

(** With no timer pending, nothing that happens on the page touches
    ["show"]. *)
Lemma run_no_timer env evs q n :
  timers q = [] →
  timers (run env evs q) = []
  ∧ has_class (doc (run env evs q)) n "show" = has_class (doc q) n "show".
Proof.
  intros Hq. induction evs as [| ev evs [IHt IHc]] using rev_ind; [done |].
  unfold run in *. rewrite foldl_app. cbn [foldl].
  set (q' := foldl (λ q0 ev0, step env ev0 q0) q evs) in *.
  destruct ev as [m | ms]; cbn [step].
  - destruct (ProductFacts.click_now_timers env m q') as [_ Ht].
    split; [congruence |]. rewrite <- IHc.
    apply ProductFacts.stable_has_class;
      [apply ProductFacts.click_stable | done | done].
  - unfold elapse. rewrite IHt. cbn [fire timers doc]. done.
Qed.

(** C6: when nothing is left of the toast's text after trimming, as when
    it holds only white space, the page-ready listener leaves the page as it
    is: no ["show"], no timer; and nothing that happens later gives the
    toast ["show"]. *)
Theorem toast_blank_no_action d t0 toast e :
  let p0 := load d t0 in
  getElementById "toast" d = Some toast → d !! toast = Some e →
  trim (textContent e) = [] ∨ Forall (λ c, isWhiteSpace c = true) (textContent e) →
  onReady p0 = (Normal tt, p0)
  ∧ ∀ env evs,
      timers (run env evs (ready p0)) = []
      ∧ has_class (doc (run env evs (ready p0))) toast "show" = has_class d toast "show".
Proof.
  intros p0 Ht He Hblank.
  assert (Hmsg : trim (textContent e) = []).
  { destruct Hblank as [H | H]; [done | by apply trim_whitespace]. }
  assert (Hr : onReady p0 = (Normal tt, p0)).
  { rewrite (onReady_found p0 toast e) by done. by rewrite Hmsg. }
  split; [done |]. intros env evs. unfold ready. rewrite Hr.
  by apply run_no_timer.
Qed.

Lemma toast_blank_no_action_witness :
  onReady Demo.blank_toast = (Normal tt, Demo.blank_toast)
  ∧ ∀ env evs,
      timers (run env evs (ready Demo.blank_toast)) = []
      ∧ has_class (doc (run env evs (ready Demo.blank_toast))) 0 "show"
        = has_class (doc Demo.blank_toast) 0 "show".
Proof.
  apply (toast_blank_no_action (doc Demo.blank_toast) 0 0
           (Demo.element "toast" ["toast"] None [32; 10; 9; 160; 32]%N false)).
  - reflexivity.
  - reflexivity.
  - right. repeat constructor.
Defined.

(** C7: when the page has no element with id ["toast"], the page-ready
    listener completes without an exception and leaves the page as it is. *)
Theorem toast_absent_no_action p :
  getElementById "toast" (doc p) = None → onReady p = (Normal tt, p).
Proof.
  intros H. unfold onReady, mbind, M_bind, bind, document_getElementById.
  by rewrite H.
Qed.

Lemma toast_absent_no_action_witness :
  onReady Demo.two_active = (Normal tt, Demo.two_active).
Proof. apply toast_absent_no_action. reflexivity. Defined.

End ToastSpec.

(** ** The size selector: more results *)

Module ProductMore.
Import Product ProductFacts.

Local Ltac tokens_nf :=
  repeat first
    [ rewrite remove_btn_add_active
    | rewrite remove_btn_remove_active
    | rewrite token_remove_idemp
    | rewrite token_remove_add_same
    | rewrite token_add_idemp ].

Lemma after_absorb env b c vb vc m e :
  b ∈ sizeButtons env →
  after env c vc m (after env b vb m e) = after env c vc m e.
Proof.
  intros Hb. destruct e as [i cl ds tx v dis]. unfold after.
  destruct (sizeInput env) as [input |], (addToCartBtn env) as [btn |];
    repeat case_bool_decide; subst; try done;
    cbv beta iota zeta delta [set_classList set_value set_disabled
      elem_id classList dataset textContent value disabled];
    f_equal; tokens_nf; reflexivity.
Qed.

Lemma click_noop env n p :
  n ∉ sizeButtons env ∨ has_class (doc p) n "disabled" = true → click env n p = p.
Proof.
  intros [Hn | Hd]; unfold click.
  - by rewrite bool_decide_eq_false_2.
  - case_bool_decide; [| done]. by rewrite onClick_disabled.
Qed.

Lemma click_cases env n p :
  click env n p = p
  ∨ (n ∈ sizeButtons env ∧ has_class (doc p) n "disabled" = false).
Proof.
  destruct (decide (n ∈ sizeButtons env)) as [Hn | Hn];
    [| left; apply click_noop; by left].
  destruct (has_class (doc p) n "disabled") eqn:Hd;
    [left; apply click_noop; by right | by right].
Qed.

Lemma click_keeps_disabled env n p c :
  has_class (doc (click env n p)) c "disabled" = has_class (doc p) c "disabled".
Proof. apply stable_has_class; [apply click_stable | done | done]. Qed.

Lemma click_absorb env n c p :
  c ∈ sizeButtons env → has_class (doc p) c "disabled" = false →
  click env c (click env n p) = click env c p.
Proof.
  intros Hc Hd. destruct (click_cases env n p) as [-> | [Hn Hnd]]; [done |].
  assert (Hd' : has_class (doc (click env n p)) c "disabled" = false).
  { by rewrite click_keeps_disabled. }
  rewrite (click_enabled_button env c p), (click_enabled_button env c (click env n p))
    by done.
  destruct (onClick_now_timers env c (click env n p)) as [Hn1 Ht1].
  destruct (onClick_now_timers env c p) as [Hn2 Ht2].
  destruct (click_now_timers env n p) as [Hn3 Ht3].
  apply Page_eq; [| congruence | congruence].
  apply list_eq. intros m. rewrite !onClick_lookup by done.
  rewrite (stable_dataset_of (doc p) (doc (click env n p))) by apply click_stable.
  rewrite (click_enabled_button env n p), onClick_lookup by done.
  destruct (doc p !! m) as [e |]; [| done]. cbn. f_equal. by apply after_absorb.
Qed.

Lemma clicks_cons env n ns p : clicks env (n :: ns) p = clicks env ns (click env n p).
Proof. reflexivity. Qed.

Lemma clicks_app env ns1 ns2 p :
  clicks env (ns1 ++ ns2) p = clicks env ns2 (clicks env ns1 p).
Proof. unfold clicks. apply foldl_app. Qed.

(** X1: the page after a click on an option that is not disabled does not
    depend on the clicks before it: only the last selection counts. *)
Theorem last_click_wins env ns c p :
  c ∈ sizeButtons env → has_class (doc p) c "disabled" = false →
  click env c (clicks env ns p) = click env c p.
Proof.
  intros Hc. revert p. induction ns as [| n ns IH]; intros p Hd; [done |].
  rewrite clicks_cons, IH by (by rewrite click_keeps_disabled).
  by apply click_absorb.
Qed.

Lemma last_click_wins_witness :
  click (ready Demo.page) 3 (clicks (ready Demo.page) [1; 4; 2; 0; 5] Demo.page)
  = click (ready Demo.page) 3 Demo.page.
Proof.
  apply last_click_wins.
  - apply (bool_decide_unpack (3 ∈ sizeButtons (ready Demo.page))).
    vm_compute. exact I.
  - vm_compute. reflexivity.
Defined.

Lemma value_valid_click p0 pre b input :
  sizeInput (ready p0) = Some input → b ∈ sizeButtons (ready p0) →
  has_class (doc (clicks (ready p0) pre p0)) b "disabled" = false →
  value <$> doc (click (ready p0) b (clicks (ready p0) pre p0)) !! input
  = Some (dataset_of (doc p0) b "size").
Proof.
  intros Hi Hb Hd.
  destruct (getElementById_lookup p0 _ pre input Hi) as [ei Hei].
  rewrite click_enabled_button, onClick_lookup, Hei by done. cbn. f_equal.
  rewrite after_value by done.
  apply stable_dataset_of, clicks_stable.
Qed.

(** X2: from the first click on an option that is not disabled on, after
    every further sequence of clicks exactly one option is selected and the
    hidden input holds that option's [data-size]; the add-to-cart control
    need not be there. *)
Theorem input_follows_selection p0 pre b post input :
  let env := ready p0 in
  let q := clicks env post (click env b (clicks env pre p0)) in
  sizeInput env = Some input → b ∈ sizeButtons env →
  has_class (doc (clicks env pre p0)) b "disabled" = false →
  ∃ c, selected env q = [c]
       ∧ value <$> doc q !! input = Some (dataset_of (doc p0) c "size").
Proof.
  intros env q Hi Hb Hd. subst q.
  induction post as [| n post (c & Hsel & Hval)] using rev_ind.
  - exists b. split; [by apply selected_valid_click | by apply value_valid_click].
  - rewrite clicks_snoc.
    set (q := clicks env post (click env b (clicks env pre p0))) in *.
    destruct (click_cases env n q) as [-> | [Hn Hnd]]; [by exists c |].
    assert (Hq : q = clicks env (pre ++ b :: post) p0).
    { subst q. by rewrite clicks_app, clicks_cons. }
    exists n. rewrite Hq in *.
    split; [by apply selected_valid_click | by apply value_valid_click].
Qed.

Lemma input_follows_selection_witness :
  ∃ c, selected (ready Demo.page)
         (clicks (ready Demo.page) [4; 3; 0; 4]
            (click (ready Demo.page) 1 (clicks (ready Demo.page) [4] Demo.page))) = [c]
       ∧ value <$> doc (clicks (ready Demo.page) [4; 3; 0; 4]
                          (click (ready Demo.page) 1
                             (clicks (ready Demo.page) [4] Demo.page))) !! 6
         = Some (dataset_of (doc Demo.page) c "size").
Proof.
  apply (input_follows_selection Demo.page [4] 1 [4; 3; 0; 4] 6).
  - reflexivity.
  - apply (bool_decide_unpack (1 ∈ sizeButtons (ready Demo.page))).
    vm_compute. exact I.
  - vm_compute. reflexivity.
Defined.

(** X3: with no element of id ["selectedSize"] on the page, a click on an
    option that is not disabled ends in a [TypeError] after the selection
    has moved to that option; no element's [value], [disabled] flag or
    ["btn--disabled"] marker has changed, so the add-to-cart control is not
    enabled by it. *)
Theorem click_missing_input p0 pre b :
  let env := ready p0 in
  let p := clicks env pre p0 in
  let p' := click env b p in
  sizeInput env = None → b ∈ sizeButtons env →
  has_class (doc p) b "disabled" = false →
  (onClick env b p).1 = Throw TypeError
  ∧ selected env p' = [b]
  ∧ ∀ m, value <$> doc p' !! m = value <$> doc p !! m
         ∧ disabled <$> doc p' !! m = disabled <$> doc p !! m
         ∧ has_class (doc p') m "btn--disabled" = has_class (doc p) m "btn--disabled".
Proof.
  intros env p p' Hi Hb Hd. split; [| split].
  - rewrite onClick_outcome by done. by rewrite Hi.
  - by apply selected_valid_click.
  - intros m. subst p'. unfold has_class.
    rewrite click_enabled_button, onClick_lookup by done.
    destruct (doc p !! m) as [e |]; [| done]. cbn.
    unfold after. rewrite Hi.
    destruct (bool_decide (m ∈ sizeButtons env)), (bool_decide (m = b));
      cbn [set_classList value disabled classList];
      (split; [done | split; [done |]]); apply bool_decide_ext;
      rewrite ?elem_of_token_add, ?elem_of_token_remove; naive_solver.
Qed.

Lemma click_missing_input_witness :
  let env := ready Pages.no_input in
  let p := clicks env [1] Pages.no_input in
  let p' := click env 0 p in
  (onClick env 0 p).1 = Throw TypeError
  ∧ selected env p' = [0]
  ∧ ∀ m, value <$> doc p' !! m = value <$> doc p !! m
         ∧ disabled <$> doc p' !! m = disabled <$> doc p !! m
         ∧ has_class (doc p') m "btn--disabled" = has_class (doc p) m "btn--disabled".
Proof.
  apply (click_missing_input Pages.no_input [1] 0).
  - reflexivity.
  - apply (bool_decide_unpack (0 ∈ sizeButtons (ready Pages.no_input))).
    vm_compute. exact I.
  - vm_compute. reflexivity.
Defined.

(** X4: with the hidden input on the page but no element of id
    ["addToCartBtn"], a click on an option that is not disabled ends in a
    [TypeError] after the selection has moved and the hidden input has
    received the option's [data-size]; no [disabled] flag and no
    ["btn--disabled"] marker has changed. *)
Theorem click_missing_button p0 pre b input :
  let env := ready p0 in
  let p := clicks env pre p0 in
  let p' := click env b p in
  sizeInput env = Some input → addToCartBtn env = None → b ∈ sizeButtons env →
  has_class (doc p) b "disabled" = false →
  (onClick env b p).1 = Throw TypeError
  ∧ selected env p' = [b]
  ∧ value <$> doc p' !! input = Some (dataset_of (doc p) b "size")
  ∧ ∀ m, disabled <$> doc p' !! m = disabled <$> doc p !! m
         ∧ has_class (doc p') m "btn--disabled" = has_class (doc p) m "btn--disabled".
Proof.
  intros env p p' Hi Hbtn Hb Hd. split; [| split; [| split]].
  - rewrite onClick_outcome by done. by rewrite Hi, Hbtn.
  - by apply selected_valid_click.
  - subst p' p env. rewrite value_valid_click by done. f_equal.
    symmetry. apply stable_dataset_of, clicks_stable.
  - intros m. subst p'. unfold has_class.
    rewrite click_enabled_button, onClick_lookup by done.
    destruct (doc p !! m) as [e |]; [| done]. cbn.
    unfold after. rewrite Hi, Hbtn.
    destruct (bool_decide (m ∈ sizeButtons env)), (bool_decide (m = b)),
      (bool_decide (m = input));
      cbn [set_classList set_value value disabled classList];
      (split; [done |]); apply bool_decide_ext;
      rewrite ?elem_of_token_add, ?elem_of_token_remove; naive_solver.
Qed.

Lemma click_missing_button_witness :
  let env := ready Pages.no_button in
  let p := clicks env [2] Pages.no_button in
  let p' := click env 0 p in
  (onClick env 0 p).1 = Throw TypeError
  ∧ selected env p' = [0]
  ∧ value <$> doc p' !! 3 = Some (dataset_of (doc p) 0 "size")
  ∧ ∀ m, disabled <$> doc p' !! m = disabled <$> doc p !! m
         ∧ has_class (doc p') m "btn--disabled" = has_class (doc p) m "btn--disabled".
Proof.
  apply (click_missing_button Pages.no_button [2] 0 3).
  - reflexivity.
  - reflexivity.
  - apply (bool_decide_unpack (0 ∈ sizeButtons (ready Pages.no_button))).
    vm_compute. exact I.
  - vm_compute. reflexivity.
Defined.

(** X5: the click listener throws exactly when the clicked option is not
    disabled and the hidden input or the add-to-cart control is missing; a
    click on a disabled option completes even on such a page. *)
Theorem click_throws_iff env b p :
  ((onClick env b p).1 = Throw TypeError
   ↔ has_class (doc p) b "disabled" = false
     ∧ (sizeInput env = None ∨ addToCartBtn env = None))
  ∧ ((onClick env b p).1 = Normal tt ∨ (onClick env b p).1 = Throw TypeError).
Proof.
  destruct (has_class (doc p) b "disabled") eqn:Hd.
  - rewrite onClick_disabled by done. cbn. naive_solver.
  - rewrite onClick_outcome by done.
    destruct (sizeInput env), (addToCartBtn env); naive_solver.
Qed.

Lemma clicks_now_timers env ns p :
  now (clicks env ns p) = now p ∧ timers (clicks env ns p) = timers p.
Proof.
  induction ns as [| n ns [IHn IHt]] using rev_ind; [done |].
  rewrite clicks_snoc.
  destruct (click_now_timers env n (clicks env ns p)) as [Hn Ht].
  split; congruence.
Qed.

Lemma stable_length d d' :
  (∀ m, option_Forall2 stable (d !! m) (d' !! m)) → length d' = length d.
Proof.
  intros H.
  assert (Hlt : ∀ m, m < length d ↔ m < length d').
  { intros m. rewrite <- !lookup_lt_is_Some.
    destruct (H m); split; intros [? ?]; by eauto. }
  destruct (Nat.lt_trichotomy (length d') (length d)) as [Hl | [Hl | Hl]]; [| done |].
  - apply Hlt in Hl. lia.
  - apply Hlt in Hl. lia.
Qed.

(** X6: no sequence of clicks adds or removes an element, changes the
    clock or the pending timers, or changes an element's id, [data-*]
    attributes, text, or any class token other than ["active"] and
    ["btn--disabled"]. *)
Theorem clicks_frame env ns p m c :
  let q := clicks env ns p in
  c ≠ "active" → c ≠ "btn--disabled" →
  length (doc q) = length (doc p) ∧ now q = now p ∧ timers q = timers p
  ∧ elem_id <$> doc q !! m = elem_id <$> doc p !! m
  ∧ dataset <$> doc q !! m = dataset <$> doc p !! m
  ∧ textContent <$> doc q !! m = textContent <$> doc p !! m
  ∧ has_class (doc q) m c = has_class (doc p) m c.
Proof.
  intros q Ha Hb. destruct (clicks_now_timers env ns p) as [Hn Ht].
  split; [apply stable_length; intros; apply clicks_stable |].
  split; [done |]. split; [done |].
  pose proof (clicks_stable env ns p m) as Hs. fold q in Hs.
  split; [| split; [| split]].
  - destruct Hs as [e e' (He & _) |]; cbn; congruence.
  - destruct Hs as [e e' (_ & He & _) |]; cbn; congruence.
  - destruct Hs as [e e' (_ & _ & He & _) |]; cbn; congruence.
  - by apply stable_has_class.
Qed.

Lemma clicks_frame_witness :
  let q := clicks (ready Demo.page) [1; 4; 3; 0] Demo.page in
  length (doc q) = length (doc Demo.page) ∧ now q = now Demo.page
  ∧ timers q = timers Demo.page
  ∧ elem_id <$> doc q !! 3 = elem_id <$> doc Demo.page !! 3
  ∧ dataset <$> doc q !! 3 = dataset <$> doc Demo.page !! 3
  ∧ textContent <$> doc q !! 3 = textContent <$> doc Demo.page !! 3
  ∧ has_class (doc q) 3 "option" = has_class (doc Demo.page) 3 "option".
Proof.
  apply (clicks_frame (ready Demo.page) [1; 4; 3; 0] Demo.page 3 "option");
    discriminate.
Defined.

Import Interplay.

Lemma confined_refl env m e : confined env m e e.
Proof. by unfold confined. Qed.

Lemma confined_trans env m e1 e2 e3 :
  confined env m e1 e2 → confined env m e2 e3 → confined env m e1 e3.
Proof.
  unfold confined. intros (Hv1 & Hd1 & Ha1) (Hv2 & Hd2 & Ha2).
  split; [| split].
  - intros H. rewrite Hv2, Hv1 by done. done.
  - intros H. destruct (Hd1 H) as [Hf1 Hc1], (Hd2 H) as [Hf2 Hc2].
    split; [congruence | by rewrite Hc2].
  - intros H. rewrite Ha2, Ha1 by done. done.
Qed.

Lemma after_confined env b size m e :
  b ∈ sizeButtons env → confined env m e (after env b size m e).
Proof.
  intros Hb. unfold confined, after.
  destruct (sizeInput env) as [input |], (addToCartBtn env) as [btn |];
    repeat case_bool_decide; subst;
    cbn [set_classList set_value set_disabled value disabled classList];
    rewrite ?elem_of_token_add, ?elem_of_token_remove; naive_solver.
Qed.

Lemma click_confined env n p m :
  option_Forall2 (confined env m) (doc p !! m) (doc (click env n p) !! m).
Proof.
  destruct (click_cases env n p) as [-> | [Hn Hd]].
  - destruct (doc p !! m); constructor. apply confined_refl.
  - rewrite click_enabled_button, onClick_lookup by done.
    destruct (doc p !! m); constructor. by apply after_confined.
Qed.

Lemma clicks_confined env ns p m :
  option_Forall2 (confined env m) (doc p !! m) (doc (clicks env ns p) !! m).
Proof.
  induction ns as [| n ns IH] using rev_ind.
  - change (clicks env [] p) with p.
    destruct (doc p !! m); constructor. apply confined_refl.
  - rewrite clicks_snoc.
    pose proof (click_confined env n (clicks env ns p) m) as Hc.
    destruct IH; inversion Hc; subst; constructor.
    eapply confined_trans; eauto.
Qed.

(** X7: clicks write [value] only on the hidden input, the [disabled]
    flag and the ["btn--disabled"] marker only on the add-to-cart control,
    and the ["active"] marker only on option elements. *)
Theorem clicks_write_only_their_targets env ns p m :
  let q := clicks env ns p in
  (sizeInput env ≠ Some m → value <$> doc q !! m = value <$> doc p !! m)
  ∧ (addToCartBtn env ≠ Some m →
     disabled <$> doc q !! m = disabled <$> doc p !! m
     ∧ has_class (doc q) m "btn--disabled" = has_class (doc p) m "btn--disabled")
  ∧ (m ∉ sizeButtons env →
     has_class (doc q) m "active" = has_class (doc p) m "active").
Proof.
  intros q. pose proof (clicks_confined env ns p m) as Hc. fold q in Hc.
  unfold has_class. destruct Hc as [e e' (Hv & Hd & Ha) |]; [| done]. cbn.
  split; [| split].
  - intros H. by rewrite Hv.
  - intros H. destruct (Hd H) as [-> Hb]. split; [done |]. by apply bool_decide_ext.
  - intros H. apply bool_decide_ext. by apply Ha.
Qed.

Lemma clicks_write_only_their_targets_witness :
  let q := clicks (ready Demo.page) [1; 4; 3; 0] Demo.page in
  value <$> doc q !! 0 = value <$> doc Demo.page !! 0
  ∧ disabled <$> doc q !! 0 = disabled <$> doc Demo.page !! 0
  ∧ has_class (doc q) 0 "btn--disabled" = has_class (doc Demo.page) 0 "btn--disabled"
  ∧ has_class (doc q) 0 "active" = has_class (doc Demo.page) 0 "active".
Proof.
  destruct (clicks_write_only_their_targets (ready Demo.page) [1; 4; 3; 0] Demo.page 0)
    as (Hv & Hd & Ha).
  split; [apply Hv; discriminate |].
  split; [apply Hd; discriminate |].
  split; [apply Hd; discriminate |].
  apply Ha. intros H.
  apply (bool_decide_pack (0 ∈ sizeButtons (ready Demo.page))) in H.
  vm_compute in H. exact H.
Defined.

(** X8: an element that is enabled, by the markup or by an earlier
    click, is enabled after every sequence of clicks: the listener never
    sets a [disabled] flag and never adds ["btn--disabled"]. *)
Theorem clicks_never_disable env ns p n :
  enabled p n → enabled (clicks env ns p) n.
Proof. intros H. eapply enabled_stable; [apply clicks_stable | exact H]. Qed.

Lemma clicks_never_disable_witness :
  enabled (clicks (ready Pages.enabled_button) [1; 0; 3; 1] Pages.enabled_button) 3.
Proof.
  apply clicks_never_disable.
  exists (Demo.element "addToCartBtn" ["btn"] None [] false).
  split; [reflexivity |]. split; [reflexivity |].
  apply (bool_decide_unpack ("btn--disabled" ∉ ["btn"])). vm_compute. exact I.
Defined.

Lemma getElementById_ids s d :
  getElementById s d = fst <$> list_find (λ i, i = s) (elem_id <$> d).
Proof.
  unfold getElementById. induction d as [| e d IH]; [done |].
  cbn. case_decide; [done |].
  destruct (list_find _ d) as [[i x] |], (list_find _ (elem_id <$> d)) as [[j y] |];
    cbn in *; congruence.
Qed.

Lemma ready_ext p q :
  length (doc q) = length (doc p) →
  (∀ m, elem_id <$> doc q !! m = elem_id <$> doc p !! m) →
  (∀ m, has_class (doc q) m "option" = has_class (doc p) m "option") →
  ready q = ready p.
Proof.
  intros Hlen Hid Hopt.
  assert (Hids : elem_id <$> doc q = elem_id <$> doc p).
  { apply list_eq. intros m. by rewrite !list_lookup_fmap. }
  unfold ready. f_equal.
  - unfold querySelectorAll_class. rewrite Hlen.
    apply list_filter_iff. intros m. by rewrite Hopt.
  - by rewrite !getElementById_ids, Hids.
  - by rewrite !getElementById_ids, Hids.
Qed.

(** X9: the elements the page-ready callback looks up are the same
    whenever it looks: after any sequence of clicks, [querySelectorAll]
    and [getElementById] return what they returned at load. *)
Theorem ready_after_clicks env ns p : ready (clicks env ns p) = ready p.
Proof.
  apply ready_ext.
  - apply stable_length. intros m. apply clicks_stable.
  - intros m. destruct (clicks_stable env ns p m) as [e e' (He & _) |]; cbn; congruence.
  - intros m. apply stable_has_class; [apply clicks_stable | done | done].
Qed.

End ProductMore.

(** ** The toast: more results *)

Module ToastMore.
Import Toast Session Interplay.

Lemma trimStart_nil s :
  trimStart s = [] → Forall (λ c, isWhiteSpace c = true) s.
Proof.
  induction s as [| c s IH]; [constructor |]. cbn.
  destruct (isWhiteSpace c) eqn:Hc; [| done]. intros H. constructor; auto.
Qed.

Lemma trimStart_head s c r : trimStart s = c :: r → isWhiteSpace c = false.
Proof.
  induction s as [| x s IH]; [done |]. cbn.
  destruct (isWhiteSpace x) eqn:Hx; [exact IH |]. by intros [= <- _].
Qed.

Lemma trim_nil s : trim s = [] ↔ Forall (λ c, isWhiteSpace c = true) s.
Proof.
  split; [| apply ToastSpec.trim_whitespace].
  unfold trim, trimEnd. intros H.
  assert (Hrev : trimStart (rev (trimStart s)) = []).
  { rewrite <- (rev_involutive (trimStart (rev (trimStart s)))), H. done. }
  apply trimStart_nil in Hrev.
  destruct (trimStart s) as [| c r] eqn:Hs; [by apply trimStart_nil |].
  apply trimStart_head in Hs.
  apply List.Forall_rev in Hrev. rewrite rev_involutive in Hrev.
  inversion Hrev; subst. congruence.
Qed.

(** The page once the listener has shown the toast. *)
Lemma ready_shown d t0 toast e :
  getElementById "toast" d = Some toast → d !! toast = Some e →
  trim (textContent e) ≠ [] →
  ready (load d t0)
  = {| doc := alter (set_classList (token_add "show")) toast d;
       now := t0;
       timers := [ {| due := t0 + 2600; callback := HideToast toast |} ] |}.
Proof.
  intros Ht He Hmsg. unfold ready.
  rewrite (ToastSpec.onReady_found (load d t0) toast e) by done.
  by destruct (trim (textContent e)).
Qed.

Lemma ready_blank d t0 toast e :
  getElementById "toast" d = Some toast → d !! toast = Some e →
  trim (textContent e) = [] → ready (load d t0) = load d t0.
Proof.
  intros Ht He Hmsg. unfold ready.
  rewrite (ToastSpec.onReady_found (load d t0) toast e) by done.
  by rewrite Hmsg.
Qed.

(** X10: the toast is shown exactly when its text has a code unit that
    [trim] does not strip: on text of white space and line terminators only
    the listener leaves the page as it is, on any other text it sets the one
    timer. *)
Theorem toast_shown_iff_text d t0 toast e :
  let p0 := load d t0 in
  getElementById "toast" d = Some toast → d !! toast = Some e →
  (ready p0 = p0 ↔ Forall (λ c, isWhiteSpace c = true) (textContent e))
  ∧ (timers (ready p0) = [ {| due := t0 + 2600; callback := HideToast toast |} ]
     ∧ has_class (doc (ready p0)) toast "show" = true
     ↔ Exists (λ c, isWhiteSpace c = false) (textContent e)).
Proof.
  intros p0 Ht He. subst p0.
  destruct (decide (trim (textContent e) = [])) as [Hmsg | Hmsg].
  - pose proof (proj1 (trim_nil _) Hmsg) as Hall.
    rewrite (ready_blank d t0 toast e) by done. split; [done |].
    split; [by intros [? _] |].
    intros Hex. apply Exists_exists in Hex as (c & Hc & Hws).
    rewrite Forall_forall in Hall. specialize (Hall c Hc). congruence.
  - assert (Hnall : ¬ Forall (λ c, isWhiteSpace c = true) (textContent e)).
    { by rewrite <- trim_nil. }
    rewrite (ready_shown d t0 toast e) by done. split.
    + split; [| done]. intros [=].
    + split; [| intros _; split; [done | by eapply ToastSpec.has_class_add_same]].
      intros _. apply not_Forall_Exists in Hnall; [| intros c; apply _].
      eapply Exists_impl; [exact Hnall |]. intros c Hc. cbn in Hc.
      by destruct (isWhiteSpace c).
Qed.

Lemma toast_shown_iff_text_witness :
  (ready Demo.page = Demo.page
   ↔ Forall (λ c, isWhiteSpace c = true) Demo.item_added)
  ∧ (timers (ready Demo.page) = [ {| due := 0 + 2600; callback := HideToast 0 |} ]
     ∧ has_class (doc (ready Demo.page)) 0 "show" = true
     ↔ Exists (λ c, isWhiteSpace c = false) Demo.item_added).
Proof.
  apply (toast_shown_iff_text (doc Demo.page) 0 0
           (Demo.element "toast" ["toast"] None Demo.item_added false)).
  - reflexivity.
  - reflexivity.
Defined.

Lemma elapse_fires d t0 toast ms :
  (2600 ≤ ms)%N →
  elapse ms {| doc := d; now := t0;
               timers := [ {| due := t0 + 2600; callback := HideToast toast |} ] |}
  = {| doc := alter (set_classList (token_remove "show")) toast d;
       now := t0 + ms; timers := [] |}.
Proof.
  intros Hms. unfold elapse. cbn [timers doc now fire due callback].
  destruct (N.leb_spec (t0 + 2600) (t0 + ms)) as [_ | Hlt]; [done | lia].
Qed.

(** X11: showing and hiding is a round trip: when the markup's toast does
    not carry ["show"] and has text to show, then 2600 ms or more after
    page-ready, with no click in between, the document is the markup again
    and no timer is pending. *)
Theorem toast_restores_markup d t0 toast e ms :
  getElementById "toast" d = Some toast → d !! toast = Some e →
  trim (textContent e) ≠ [] → "show" ∉ classList e → (2600 ≤ ms)%N →
  elapse ms (ready (load d t0)) = load d (t0 + ms).
Proof.
  intros Ht He Hmsg Hshow Hms.
  rewrite (ready_shown d t0 toast e), elapse_fires by done.
  unfold load. f_equal. apply list_eq. intros m.
  rewrite !ProductFacts.lookup_alter_if. case_bool_decide as Hm.
  - subst m. rewrite He. cbn. f_equal. destruct e as [i cl ds tx v dis].
    unfold set_classList. cbn [elem_id classList dataset textContent value disabled] in *.
    f_equal. rewrite token_remove_add_same. by apply token_remove_absent.
  - by destruct (d !! m).
Qed.

Lemma toast_restores_markup_witness :
  elapse 3000 (ready (load (doc Demo.page) 5)) = load (doc Demo.page) (5 + 3000).
Proof.
  apply (toast_restores_markup (doc Demo.page) 5 0
           (Demo.element "toast" ["toast"] None Demo.item_added false)).
  - reflexivity.
  - reflexivity.
  - vm_compute. discriminate.
  - apply (bool_decide_unpack ("show" ∉ ["toast"])). vm_compute. exact I.
  - lia.
Defined.

(** X12: a toast that carries ["show"] in the markup already is not given
    a second token, and the timer takes the marker away all the same:
    2600 ms after page-ready the toast has the markup's class list without
    ["show"]. *)
Theorem toast_shown_in_markup d t0 toast e ms :
  getElementById "toast" d = Some toast → d !! toast = Some e →
  trim (textContent e) ≠ [] → "show" ∈ classList e → (2600 ≤ ms)%N →
  doc (ready (load d t0)) = d
  ∧ classList <$> doc (elapse ms (ready (load d t0))) !! toast
    = Some (token_remove "show" (classList e)).
Proof.
  intros Ht He Hmsg Hshow Hms.
  rewrite (ready_shown d t0 toast e) by done. cbn [doc].
  assert (Hsame : alter (set_classList (token_add "show")) toast d = d).
  { apply list_eq. intros m. rewrite ProductFacts.lookup_alter_if.
    case_bool_decide as Hm; [| by destruct (d !! m)].
    subst m. rewrite He. cbn. f_equal. destruct e as [i cl ds tx v dis].
    unfold set_classList, token_add. cbn [classList] in *.
    by rewrite bool_decide_eq_true_2. }
  split; [done |].
  rewrite elapse_fires by done. cbn [doc].
  by rewrite Hsame, list_lookup_alter_eq, He.
Qed.

Lemma toast_shown_in_markup_witness :
  doc (ready (load (doc Pages.shown_toast) 0)) = doc Pages.shown_toast
  ∧ classList <$> doc (elapse 2600 (ready (load (doc Pages.shown_toast) 0))) !! 0
    = Some (token_remove "show" ["toast"; "show"]).
Proof.
  apply (toast_shown_in_markup (doc Pages.shown_toast) 0 0
           (Demo.element "toast" ["toast"; "show"] None Demo.item_added false)).
  - reflexivity.
  - reflexivity.
  - vm_compute. discriminate.
  - apply (bool_decide_unpack ("show" ∈ ["toast"; "show"])). vm_compute. exact I.
  - lia.
Defined.

Lemma same_but_show_refl e : same_but_show e e.
Proof. by unfold same_but_show. Qed.

Lemma same_but_show_trans e1 e2 e3 :
  same_but_show e1 e2 → same_but_show e2 e3 → same_but_show e1 e3.
Proof.
  unfold same_but_show.
  intros (? & ? & ? & ? & ? & Hc1) (? & ? & ? & ? & ? & Hc2).
  repeat split; try congruence.
  - intros ?. apply Hc1; [done |]. by apply Hc2.
  - intros ?. apply Hc2; [done |]. by apply Hc1.
Qed.

Lemma same_but_show_add e : same_but_show e (set_classList (token_add "show") e).
Proof.
  unfold same_but_show, set_classList. cbn. repeat split; try done.
  - rewrite elem_of_token_add. naive_solver.
  - rewrite elem_of_token_add. naive_solver.
Qed.

Lemma same_but_show_remove e :
  same_but_show e (set_classList (token_remove "show") e).
Proof.
  unfold same_but_show, set_classList. cbn. repeat split; try done.
  - rewrite elem_of_token_remove. naive_solver.
  - rewrite elem_of_token_remove. naive_solver.
Qed.

Lemma alter_related (R : Element → Element → Prop) (f : Element → Element)
    (d : list Element) (n m : nat) :
  (∀ e, R e e) → (∀ e, R e (f e)) →
  option_Forall2 R (d !! m) (alter f n d !! m).
Proof.
  intros Hrefl Hf. rewrite ProductFacts.lookup_alter_if.
  destruct (d !! m) as [e |]; cbn; constructor. by case_bool_decide.
Qed.

Lemma option_Forall2_trans_same o1 o2 o3 :
  option_Forall2 same_but_show o1 o2 → option_Forall2 same_but_show o2 o3 →
  option_Forall2 same_but_show o1 o3.
Proof.
  intros H1 H2. destruct H1; inversion H2; subst; constructor.
  eapply same_but_show_trans; eauto.
Qed.

Lemma ready_cases p :
  ready p = p
  ∨ ∃ toast,
      getElementById "toast" (doc p) = Some toast
      ∧ ready p
        = {| doc := alter (set_classList (token_add "show")) toast (doc p);
             now := now p;
             timers := enqueue {| due := now p + 2600; callback := HideToast toast |}
                         (timers p) |}.
Proof.
  destruct (getElementById "toast" (doc p)) as [toast |] eqn:Ht.
  - destruct (getElementById_Some _ _ _ Ht) as (e & He & _).
    unfold ready. rewrite (ToastSpec.onReady_found p toast e) by done.
    destruct (0 <? length (trim (textContent e))); [right; by exists toast | by left].
  - left. unfold ready, onReady, mbind, M_bind, bind, document_getElementById.
    by rewrite Ht.
Qed.

(** X13: the page-ready listener of the toast script changes nothing but
    the toast's class list, and of that only the ["show"] token: every other
    element is as it was, and the toast keeps its id, data, text, value,
    flag and other tokens. *)
Theorem toast_ready_frame p m :
  length (doc (ready p)) = length (doc p)
  ∧ option_Forall2 same_but_show (doc p !! m) (doc (ready p) !! m)
  ∧ (getElementById "toast" (doc p) ≠ Some m → doc (ready p) !! m = doc p !! m).
Proof.
  destruct (ready_cases p) as [-> | (toast & Ht & ->)].
  - split; [done |]. split; [| done].
    destruct (doc p !! m); constructor. apply same_but_show_refl.
  - cbn [doc]. split; [apply length_alter |]. split.
    + apply alter_related; [apply same_but_show_refl | apply same_but_show_add].
    + intros Hm. apply list_lookup_alter_ne. congruence.
Qed.

Lemma toast_ready_frame_witness :
  length (doc (ready Demo.page)) = length (doc Demo.page)
  ∧ option_Forall2 same_but_show (doc Demo.page !! 3) (doc (ready Demo.page) !! 3)
  ∧ doc (ready Demo.page) !! 3 = doc Demo.page !! 3.
Proof.
  destruct (toast_ready_frame Demo.page 3) as (Hl & Hs & He).
  split; [exact Hl |]. split; [exact Hs |]. apply He. discriminate.
Defined.

Lemma ready_same_but_show p m :
  option_Forall2 same_but_show (doc p !! m) (doc (ready p) !! m).
Proof.
  destruct (ready_cases p) as [-> | (toast & Ht & ->)].
  - destruct (doc p !! m); constructor. apply same_but_show_refl.
  - apply alter_related; [apply same_but_show_refl | apply same_but_show_add].
Qed.

Lemma same_but_show_has_class d d' m c :
  option_Forall2 same_but_show (d !! m) (d' !! m) → c ≠ "show" →
  has_class d' m c = has_class d m c.
Proof.
  intros H Hc. unfold has_class.
  destruct H as [e e' (_ & _ & _ & _ & _ & Hcl) |]; [| done].
  apply bool_decide_ext. by apply Hcl.
Qed.

Lemma same_but_show_length d d' :
  (∀ m, option_Forall2 same_but_show (d !! m) (d' !! m)) → length d' = length d.
Proof.
  intros H.
  assert (Hlt : ∀ m, m < length d ↔ m < length d').
  { intros m. rewrite <- !lookup_lt_is_Some.
    destruct (H m); split; intros [? ?]; by eauto. }
  destruct (Nat.lt_trichotomy (length d') (length d)) as [Hl | [Hl | Hl]]; [| done |].
  - apply Hlt in Hl. lia.
  - apply Hlt in Hl. lia.
Qed.

Lemma product_ready_same_but_show p q :
  (∀ m, option_Forall2 same_but_show (doc p !! m) (doc q !! m)) →
  Product.ready q = Product.ready p.
Proof.
  intros H. apply ProductMore.ready_ext.
  - by apply same_but_show_length.
  - intros m. destruct (H m) as [e e' (He & _) |]; cbn; congruence.
  - intros m. by apply same_but_show_has_class.
Qed.

(** X14: the two page-ready listeners can run in either order: the size
    selector finds the same option elements, hidden input and add-to-cart
    control whether or not the toast script has run before it. *)
Theorem product_ready_after_toast p : Product.ready (ready p) = Product.ready p.
Proof. apply product_ready_same_but_show, ready_same_but_show. Qed.

Lemma lookup_same_but_show (d : list Element) (m : nat) :
  option_Forall2 same_but_show (d !! m) (d !! m).
Proof. destruct (d !! m); constructor. apply same_but_show_refl. Qed.

Lemma fire_same_but_show t q d m :
  option_Forall2 same_but_show (d !! m) ((fire t q d).2 !! m).
Proof.
  revert d. induction q as [| tm q IH]; intros d; cbn [fire].
  - apply lookup_same_but_show.
  - destruct (due tm <=? t)%N.
    + eapply option_Forall2_trans_same; [| apply IH].
      destruct (callback tm) as [toast]. cbn.
      apply alter_related; [apply same_but_show_refl | apply same_but_show_remove].
    + apply lookup_same_but_show.
Qed.

Lemma elapse_same_but_show ms p m :
  option_Forall2 same_but_show (doc p !! m) (doc (elapse ms p) !! m).
Proof.
  unfold elapse. pose proof (fire_same_but_show (now p + ms) (timers p) (doc p) m) as H.
  by destruct (fire _ _ _).
Qed.

Lemma after_same_but_show env b size m e e' :
  same_but_show e e' →
  same_but_show (Product.after env b size m e) (Product.after env b size m e').
Proof.
  intros (Hi & Hds & Htx & Hv & Hdis & Hcl). unfold same_but_show, Product.after.
  destruct (Product.sizeInput env) as [input |],
    (Product.addToCartBtn env) as [btn |];
    repeat match goal with
           | |- context [bool_decide ?P] => destruct (bool_decide P)
           end;
    cbn [set_classList set_value set_disabled
         elem_id classList dataset textContent value disabled];
    do 5 (split; [done |]); intros c Hc; specialize (Hcl c Hc);
    repeat (rewrite elem_of_token_add || rewrite elem_of_token_remove); tauto.
Qed.

Lemma click_same_but_show env n p p' :
  (∀ m, option_Forall2 same_but_show (doc p !! m) (doc p' !! m)) →
  ∀ m, option_Forall2 same_but_show
         (doc (Product.click env n p) !! m) (doc (Product.click env n p') !! m).
Proof.
  intros H m.
  assert (Hd : has_class (doc p') n "disabled" = has_class (doc p) n "disabled").
  { by apply same_but_show_has_class. }
  destruct (decide (n ∈ Product.sizeButtons env)) as [Hn | Hn];
    [| rewrite !ProductMore.click_noop by (by left); apply H].
  destruct (has_class (doc p) n "disabled") eqn:Hnd;
    [rewrite !ProductMore.click_noop by (right; congruence); apply H |].
  rewrite (ProductFacts.click_enabled_button env n p),
    (ProductFacts.click_enabled_button env n p') by congruence.
  rewrite !ProductFacts.onClick_lookup by congruence.
  assert (Hds : dataset_of (doc p') n "size" = dataset_of (doc p) n "size").
  { unfold dataset_of. destruct (H n) as [e e' (_ & -> & _) |]; done. }
  rewrite Hds. destruct (H m); constructor. by apply after_same_but_show.
Qed.

Lemma run_same_but_show env evs p p' :
  (∀ m, option_Forall2 same_but_show (doc p !! m) (doc p' !! m)) →
  ∀ m, option_Forall2 same_but_show
         (doc (Product.clicks env (clicks_of evs) p) !! m) (doc (run env evs p') !! m).
Proof.
  revert p p'. induction evs as [| [n | ms] evs IH]; intros p p' H m.
  - apply H.
  - cbn [clicks_of]. rewrite ProductMore.clicks_cons.
    change (run env (Click n :: evs) p') with (run env evs (Product.click env n p')).
    apply IH. by apply click_same_but_show.
  - cbn [clicks_of].
    change (run env (Elapse ms :: evs) p') with (run env evs (elapse ms p')).
    apply IH. intros k. eapply option_Forall2_trans_same; [apply H |].
    apply elapse_same_but_show.
Qed.

(** X15: the passing of time does not disturb the size selector: after any
    sequence of clicks and waits, the selected options, every [value] and
    [disabled] flag and every class token other than ["show"] are what the
    clicks alone would have left. *)
Theorem time_leaves_selection env evs p m c :
  let q := run env evs p in
  let q' := Product.clicks env (clicks_of evs) p in
  c ≠ "show" →
  Product.selected env q = Product.selected env q'
  ∧ value <$> doc q !! m = value <$> doc q' !! m
  ∧ disabled <$> doc q !! m = disabled <$> doc q' !! m
  ∧ has_class (doc q) m c = has_class (doc q') m c.
Proof.
  intros q q' Hc.
  assert (H : ∀ k, option_Forall2 same_but_show (doc q' !! k) (doc q !! k)).
  { apply run_same_but_show. intros k. apply lookup_same_but_show. }
  split; [| split; [| split]].
  - unfold Product.selected. apply list_filter_iff. intros k.
    by rewrite (same_but_show_has_class (doc q') (doc q)).
  - destruct (H m) as [e e' (_ & _ & _ & Hv & _) |]; cbn; congruence.
  - destruct (H m) as [e e' (_ & _ & _ & _ & Hd & _) |]; cbn; congruence.
  - by apply same_but_show_has_class.
Qed.

Lemma time_leaves_selection_witness :
  let env := Product.ready Demo.page in
  let evs := [Elapse 1000; Click 2; Elapse 2000; Click 4; Click 3] in
  let q := run env evs (ready Demo.page) in
  let q' := Product.clicks env (clicks_of evs) (ready Demo.page) in
  Product.selected env q = Product.selected env q'
  ∧ value <$> doc q !! 6 = value <$> doc q' !! 6
  ∧ disabled <$> doc q !! 7 = disabled <$> doc q' !! 7
  ∧ has_class (doc q) 7 "btn--disabled" = has_class (doc q') 7 "btn--disabled".
Proof.
  intros env evs q q'. subst q q'.
  destruct (time_leaves_selection env evs (ready Demo.page) 6 "btn--disabled")
    as (Hs & Hv & _); [discriminate |].
  destruct (time_leaves_selection env evs (ready Demo.page) 7 "btn--disabled")
    as (_ & _ & Hd & Hc); [discriminate |].
  auto.
Defined.

End ToastMore.
